(** * Bus / slot devices: APF cartridge slot and VME bus

    A shallow embedding of
    - [src/devices/bus/apf/slot.cpp]: the APF Imagination / M-1000 cartridge
      slot ([device_apf_cart_interface], [apf_cart_slot_device]);
    - [vme.cpp]: the VME slot and the VME bus device ([vme_slot_device],
      [vme_device]);
    - [easi_speech.cpp]: the Easi-Speech MSX cartridge
      ([msx_cart_easispeech_device]).

    Machine integers are [Z] with the conversions written out, bytes are [Z]
    in [0, 255], null pointers are [None], and C++ member functions take the
    object state as an argument and return the new state. *)

From Stdlib Require Import String Ascii.
From Stdlib Require Import ZArith List Bool Lia.
Import ListNotations.
Local Open Scope string_scope.
Local Open Scope list_scope.
Local Open Scope Z_scope.

(** ** Machine integers *)

Definition to_uint8 (z : Z) : Z := z mod 2 ^ 8.
Definition to_uint16 (z : Z) : Z := z mod 2 ^ 16.
Definition to_uint32 (z : Z) : Z := z mod 2 ^ 32.
Definition to_uint64 (z : Z) : Z := z mod 2 ^ 64.

(** The line feed that ends the messages of the source. *)
Definition nl : string := String (ascii_of_nat 10) EmptyString.

(** A printf-style message: the format of the source and its argument. *)
Record message (A : Type) : Type := Message { msg_format : string; msg_arg : A }.
Arguments Message {A} _ _.
Arguments msg_format {A} _.
Arguments msg_arg {A} _.

(** ** std::vector<uint8_t>::resize *)

Definition resize (v : list Z) (n : nat) : list Z :=
  firstn n v ++ repeat 0 (n - length v).

(* ================================================================== *)
(** ** APF cartridge slot (slot.cpp) *)

Module APF.

(** Modelled from the spec: the PCB ids are an anonymous enum of slot.h,
    which is not among the sources.  The default variant [APF_STD] is id 0;
    the other two follow in the order of [slot_list]. *)
Definition APF_STD : Z := 0.
Definition APF_BASIC : Z := 1.
Definition APF_SPACEDST : Z := 2.

(** *** Memory regions of the machine

    [region_alloc] belongs to the memory manager.  A region is a tagged,
    zero-filled buffer; the manager keeps the regions in allocation order and
    a base pointer is the position of its region in that order.  The base of
    a region of no bytes is the null pointer. *)

Record memory_region : Type := MemoryRegion {
  region_tag : string;
  region_bytes : list Z
}.

Definition memory : Type := list memory_region.

Definition region_alloc (mem : memory) (tag : string) (size : Z) : memory * nat :=
  (mem ++ [MemoryRegion tag (repeat 0 (Z.to_nat size))], length mem).

Definition region_base (mem : memory) (p : nat) : option (list Z) :=
  option_map region_bytes (nth_error mem p).

(** [region->base()]: the null pointer for a region of no bytes. *)
Definition base (mem : memory) (region : nat) : option nat :=
  match region_base mem region with
  | Some (_ :: _) => Some region
  | _ => None
  end.

(** Overwrite the front of [dst] with [src].  The copies of the loader do
    not look at the size of the buffer: [None] when [src] is longer than
    [dst], the write runs past the end of the buffer. *)
Definition overwrite (dst src : list Z) : option (list Z) :=
  if (length src <=? length dst)%nat
  then Some (src ++ skipn (length src) dst)
  else None.

Fixpoint store_region (mem : memory) (p : nat) (src : list Z) : option memory :=
  match mem, p with
  | [], _ => None
  | r :: rest, O =>
      option_map (fun stored => MemoryRegion (region_tag r) stored :: rest)
                 (overwrite (region_bytes r) src)
  | r :: rest, S p' => option_map (cons r) (store_region rest p' src)
  end.

(** Copy [size] bytes of [src] to the buffer at [dst].  A copy of no bytes
    writes nothing; any other copy needs a buffer at [dst] that can take the
    bytes, and is [None] (a write outside the buffer) without one. *)
Definition copy_bytes (mem : memory) (dst : option nat) (src : list Z) (size : Z)
  : option memory :=
  match firstn (Z.to_nat size) src with
  | [] => Some mem
  | copy =>
      match dst with
      | Some p => store_region mem p copy
      | None => None
      end
  end.

(** *** device_apf_cart_interface *)

Record device_apf_cart_interface : Type := Cart {
  m_rom : option nat;      (* uint8_t *m_rom, [None] is nullptr *)
  m_rom_size : Z;          (* uint32_t *)
  m_ram : list Z           (* std::vector<uint8_t> *)
}.

(** The constructor: [m_rom(nullptr), m_rom_size(0)], an empty [m_ram]. *)
Definition cart_constructed : device_apf_cart_interface :=
  Cart None 0 [].

Definition get_rom_base (c : device_apf_cart_interface) : option nat := m_rom c.

Definition rom_tag : string := "^cart:rom".

Definition rom_alloc (size : Z) (mc : memory * device_apf_cart_interface)
  : memory * device_apf_cart_interface :=
  let (mem, c) := mc in
  match m_rom c with
  | None =>
      let (mem', region) := region_alloc mem rom_tag size in
      (mem', Cart (base mem' region) size (m_ram c))
  | Some _ => (mem, c)
  end.

Definition ram_alloc (size : Z) (c : device_apf_cart_interface)
  : device_apf_cart_interface :=
  Cart (m_rom c) (m_rom_size c) (resize (m_ram c) (Z.to_nat size)).

(** *** The PCB table *)

Record apf_slot : Type := ApfSlot { pcb_id : Z; slot_option : string }.

Definition slot_list : list apf_slot :=
  [ ApfSlot APF_STD "std";
    ApfSlot APF_BASIC "basic";
    ApfSlot APF_SPACEDST "spacedst" ].

Fixpoint apf_get_pcb_id_from (l : list apf_slot) (slot : string) : Z :=
  match l with
  | [] => 0
  | elem :: rest =>
      if String.eqb (slot_option elem) slot then pcb_id elem
      else apf_get_pcb_id_from rest slot
  end.

Definition apf_get_pcb_id (slot : string) : Z := apf_get_pcb_id_from slot_list slot.

Fixpoint apf_get_slot_from (l : list apf_slot) (type : Z) : string :=
  match l with
  | [] => "std"
  | elem :: rest =>
      if pcb_id elem =? type then slot_option elem
      else apf_get_slot_from rest type
  end.

Definition apf_get_slot (type : Z) : string := apf_get_slot_from slot_list type.

(** *** The image being loaded (device_image_interface)

    What [call_load] asks of the image device: whether it comes from a
    software list, its base name, the bytes of the file ([length], [fread]),
    the software regions ([get_software_region],
    [get_software_region_length]) and the features ([get_feature]). *)

Record image : Type := Image {
  loaded_through_softlist : bool;
  basename : string;
  file_data : list Z;
  software_regions : list (string * list Z);
  features : list (string * string)
}.

Fixpoint assoc {A : Type} (l : list (string * A)) (key : string) : option A :=
  match l with
  | [] => None
  | (k, v) :: rest => if String.eqb k key then Some v else assoc rest key
  end.

Definition length_of (img : image) : Z := Z.of_nat (length (file_data img)).

Definition get_software_region (img : image) (tag : string) : option (list Z) :=
  assoc (software_regions img) tag.

Definition get_software_region_length (img : image) (tag : string) : Z :=
  match get_software_region img tag with
  | Some bytes => Z.of_nat (length bytes)
  | None => 0
  end.

Definition get_feature (img : image) (name : string) : option string :=
  assoc (features img) name.

Definition fread (mem : memory) (dst : option nat) (img : image) (size : Z)
  : option memory :=
  copy_bytes mem dst (file_data img) size.

(** A null [src] is a software region that does not exist; its length is 0,
    and only a copy of no bytes is possible from it. *)
Definition memcpy (mem : memory) (dst : option nat) (src : option (list Z)) (size : Z)
  : option memory :=
  match src with
  | Some bytes => copy_bytes mem dst bytes size
  | None => if size =? 0 then Some mem else None
  end.

(** *** apf_cart_slot_device *)

Inductive image_error : Type := INVALIDLENGTH | INTERNAL.

(** [None] is the empty [std::error_condition()]. *)
Definition error_condition : Type := option image_error.

Record apf_cart_slot_device : Type := Slot {
  m_type : Z;
  m_cart : option device_apf_cart_interface   (* [None] is nullptr *)
}.

(** The constructor: [m_type(APF_STD), m_cart(nullptr)]. *)
Definition slot_constructed : apf_cart_slot_device := Slot APF_STD None.

Definition device_start (card_device : option device_apf_cart_interface)
    (s : apf_cart_slot_device) : apf_cart_slot_device :=
  Slot (m_type s) card_device.

Record load_result : Type := LoadResult {
  load_error : error_condition;
  load_memory : memory;
  load_slot : apf_cart_slot_device;
  load_printed : list (message string)     (* osd_printf_error *)
}.

Definition length_message (img : image) : message string :=
  Message ("%s: Image extends beyond the expected size for an APF cart" ++ nl)%string
          (basename img).

(** [uint32_t size = !loaded_through_softlist() ? length() : get_software_region_length("rom")] *)
Definition load_size (img : image) : Z :=
  to_uint32 (if negb (loaded_through_softlist img)
             then length_of img
             else get_software_region_length img "rom").

(** How [call_load] ends: it returns, or its copy writes past the end of the
    ROM buffer (undefined behaviour of the program). *)
Inductive load_outcome : Type :=
  | Returned (r : load_result)
  | BufferOverrun.

(** The copy of the image to the ROM base of the card: [fread] for a raw
    image, [memcpy] of the software region rom otherwise. *)
Definition load_copy (img : image) (mem : memory) (c : device_apf_cart_interface)
    (size : Z) : option memory :=
  if negb (loaded_through_softlist img)
  then fread mem (get_rom_base c) img size
  else memcpy mem (get_rom_base c) (get_software_region img "rom") size.

(** The choice of the variant and the allocation of the RAM: by the size
    for a raw image, by the slot feature and the software region ram
    otherwise. *)
Definition load_variant (img : image) (s : apf_cart_slot_device)
    (c : device_apf_cart_interface) (size : Z) : Z * device_apf_cart_interface :=
  if negb (loaded_through_softlist img) then
    let type0 := APF_STD in
    let (type1, cart2) :=
      if size =? 0x1800
      then (APF_SPACEDST, ram_alloc 0x400 c)
      else (type0, c) in
    let type2 := if 0x2000 <? size then APF_BASIC else type1 in
    (type2, cart2)
  else
    let type1 :=
      match get_feature img "slot" with
      | Some pcb_name => apf_get_pcb_id pcb_name
      | None => m_type s
      end in
    let cart2 :=
      match get_software_region img "ram" with
      | Some _ => ram_alloc (get_software_region_length img "ram") c
      | None => c
      end in
    (type1, cart2).

Definition call_load (img : image) (mem : memory) (s : apf_cart_slot_device)
  : load_outcome :=
  match m_cart s with
  | Some cart =>
      let size := load_size img in
      if 0x3800 <? size then
        Returned (LoadResult (Some INVALIDLENGTH) mem s [length_message img])
      else
        let (mem1, cart1) := rom_alloc size (mem, cart) in
        match load_copy img mem1 cart1 size with
        | None => BufferOverrun
        | Some mem2 =>
            let (type, cart2) := load_variant img s cart1 size in
            Returned (LoadResult None mem2 (Slot type (Some cart2)) [])
        end
  | None => Returned (LoadResult None mem s [])
  end.

(** [get_default_card_software]: [image_file] is [hook.image_file()] (the
    bytes of the file, [None] when there is no file) and [default_slot] is
    what [software_get_default_slot("std")] answers. *)
Definition default_card_type (size : Z) : Z :=
  let type0 := APF_STD in
  let type1 := if size =? 0x1800 then APF_SPACEDST else type0 in
  if 0x2000 <? size then APF_BASIC else type1.

Definition get_default_card_software (image_file : option (list Z))
    (default_slot : string) : string :=
  match image_file with
  | Some data =>
      let size := to_uint64 (Z.of_nat (length data)) in
      apf_get_slot (default_card_type size)
  | None => default_slot
  end.

(** *** Reads and writes through the slot

    The card's own [read_rom], [extra_rom], [read_ram] and [write_ram] are
    virtual: the slot calls whatever the inserted card implements. *)

Section SlotAccess.

Variable card_read_rom : memory -> device_apf_cart_interface -> Z -> Z.
Variable card_extra_rom : memory -> device_apf_cart_interface -> Z -> Z.
Variable card_read_ram : memory -> device_apf_cart_interface -> Z -> Z.
Variable card_write_ram :
  device_apf_cart_interface -> Z -> Z -> device_apf_cart_interface.

Definition read_rom (mem : memory) (s : apf_cart_slot_device) (offset : Z) : Z :=
  match m_cart s with
  | Some cart => card_read_rom mem cart offset
  | None => 0xff
  end.

Definition extra_rom (mem : memory) (s : apf_cart_slot_device) (offset : Z) : Z :=
  match m_cart s with
  | Some cart => card_extra_rom mem cart offset
  | None => 0xff
  end.

Definition read_ram (mem : memory) (s : apf_cart_slot_device) (offset : Z) : Z :=
  match m_cart s with
  | Some cart => card_read_ram mem cart offset
  | None => 0xff
  end.

Definition write_ram (s : apf_cart_slot_device) (offset data : Z)
  : apf_cart_slot_device :=
  match m_cart s with
  | Some cart => Slot (m_type s) (Some (card_write_ram cart offset data))
  | None => s
  end.

End SlotAccess.

(** Modelled from the spec: the card-level [read_rom] (slot.h and the card
    devices) is not among the sources.  A card whose ROM is not populated, or
    an offset outside the ROM, reads as the open-bus value 0xFF; inside a
    populated ROM the read returns the stored byte. *)
Definition spec_card_read_rom (mem : memory) (c : device_apf_cart_interface)
    (offset : Z) : Z :=
  match m_rom c with
  | None => 0xff
  | Some base =>
      if (0 <=? offset) && (offset <? m_rom_size c) then
        match region_base mem base with
        | Some bytes => nth (Z.to_nat offset) bytes 0xff
        | None => 0xff
        end
      else 0xff
  end.

(** The bytes [call_load] copies into the ROM: the file ([fread]) for a raw
    image, the software region rom ([memcpy]) for a software-list one. *)
Definition rom_source (img : image) : list Z :=
  if negb (loaded_through_softlist img) then file_data img
  else match get_software_region img "rom" with
       | Some bytes => bytes
       | None => []
       end.

(** A region of that tag has been allocated. *)
Definition region_taken (mem : memory) (tag : string) : bool :=
  existsb (fun r => String.eqb (region_tag r) tag) mem.

(** The ROM buffer of the card can take [size] bytes: the card has no ROM and
    no region under its tag yet ([rom_alloc] then allocates one of that
    size), or the card has a ROM and nothing is to be copied, or the region at
    its base has at least [size] bytes. *)
Definition rom_holds (mem : memory) (c : device_apf_cart_interface) (size : Z) : bool :=
  match m_rom c with
  | None => negb (region_taken mem rom_tag)
  | Some p =>
      (size <=? 0) ||
      match region_base mem p with
      | Some bytes => size <=? Z.of_nat (length bytes)
      | None => false
      end
  end.

End APF.

(* ================================================================== *)
(** ** VME slot and VME bus (vme.cpp) *)

Module VME.

(** *** Address spaces

    The memory system is outside vme.cpp.  An address space has a data width
    and the handlers installed in it, the latest first; an access at an
    address reaches the latest handler whose range holds the address.  A
    delegate is named by the device method it binds. *)

Inductive delegate_kind : Type :=
  | delegate8      (* read8_delegate, write8_delegate *)
  | delegate8sm    (* read8sm_delegate, write8sm_delegate *)
  | delegate8smo   (* read8smo_delegate, write8smo_delegate *)
  | delegate16     (* read16_delegate, write16_delegate *)
  | delegate32.    (* read32_delegate, write32_delegate *)

Record handler_entry : Type := HandlerEntry {
  addrstart : Z;
  addrend : Z;
  kind : delegate_kind;
  rhandler : string;
  whandler : string;
  unitmask : Z
}.

Record address_space : Type := AddressSpace {
  data_width : Z;
  installed : list handler_entry
}.

Definition install_readwrite_handler (space : address_space) (e : handler_entry)
  : address_space :=
  AddressSpace (data_width space) (e :: installed space).

Definition covers (addr : Z) (e : handler_entry) : bool :=
  (addrstart e <=? addr) && (addr <=? addrend e).

Definition handler_at (space : address_space) (addr : Z) : option handler_entry :=
  find (covers addr) (installed space).

(** *** vme_slot_device *)

Record device_vme_card_interface : Type := VmeCard {
  card_tag : string;
  m_vme : option string;    (* vme_device *m_vme, named by its tag *)
  m_slot : Z
}.

Record vme_slot_device : Type := VmeSlot {
  m_slot_nbr : Z;
  card_device : option device_vme_card_interface   (* get_card_device() *)
}.



(** [uint16_t result = 0x00; return result;]: the forward to the card is
    commented out in the source, and the log is compiled out. *)
Definition read8 (s : vme_slot_device) (offset : Z) : Z * vme_slot_device :=
  let result := to_uint16 0x00 in
  (to_uint8 result, s).

Definition write8 (s : vme_slot_device) (offset data : Z) : vme_slot_device := s.

(** The card interface's own D8 accesses. *)
Definition card_read8 (c : device_vme_card_interface) (offset : Z) : Z :=
  let result := to_uint8 0x00 in result.

Definition card_write8 (c : device_vme_card_interface) (offset data : Z)
  : device_vme_card_interface := c.

(** *** vme_device *)

Record cpu_device : Type := CpuDevice {
  cpu_program : address_space     (* space(AS_PROGRAM) and its configuration *)
}.

(** What [m_prgspace] points to. *)
Inductive space_pointer : Type :=
  | own_program                   (* &space(AS_PROGRAM) of the bus *)
  | cpu_program_of (tag : string) (* &m_maincpu->space(AS_PROGRAM) *).

Record vme_device : Type := VmeDevice {
  program : address_space;                  (* the bus's own AS_PROGRAM, from m_a32_config *)
  m_allocspaces : bool;
  m_cputag : string;
  m_maincpu : option string;                (* cpu_device *, by tag *)
  m_prgspace : option space_pointer;        (* address_space * *)
  m_prgwidth : Z;
  m_device_list : list device_vme_card_interface;
  owner_cpus : list (string * cpu_device)   (* the cpu subdevices of owner() *)
}.

(** How a call ends: it returns, [fatalerror] halts it with a message (the
    state is the one at the halt), or it dereferences a null pointer. *)
Inductive outcome (S : Type) : Type :=
  | Done (s : S)
  | Fatal (m : message Z) (s : S)
  | NullDereference.
Arguments Done {S} _.
Arguments Fatal {S} _ _.
Arguments NullDereference {S}.

Fixpoint subdevice (l : list (string * cpu_device)) (tag : string) : option cpu_device :=
  match l with
  | [] => None
  | (t, d) :: rest => if String.eqb t tag then Some d else subdevice rest tag
  end.

Fixpoint update_subdevice (l : list (string * cpu_device)) (tag : string)
    (f : cpu_device -> cpu_device) : list (string * cpu_device) :=
  match l with
  | [] => []
  | (t, d) :: rest =>
      if String.eqb t tag then (t, f d) :: rest
      else (t, d) :: update_subdevice rest tag f
  end.

Definition use_owner_spaces (bus : vme_device) : vme_device :=
  VmeDevice (program bus) false (m_cputag bus) (m_maincpu bus) (m_prgspace bus)
            (m_prgwidth bus) (m_device_list bus) (owner_cpus bus).

Definition device_start (bus : vme_device) : outcome vme_device :=
  if m_allocspaces bus then
    Done (VmeDevice (program bus) (m_allocspaces bus) (m_cputag bus) (m_maincpu bus)
                    (Some own_program) (data_width (program bus))
                    (m_device_list bus) (owner_cpus bus))
  else
    match subdevice (owner_cpus bus) (m_cputag bus) with
    | Some cpu =>
        Done (VmeDevice (program bus) (m_allocspaces bus) (m_cputag bus)
                        (Some (m_cputag bus))
                        (Some (cpu_program_of (m_cputag bus)))
                        (data_width (cpu_program cpu))
                        (m_device_list bus) (owner_cpus bus))
    | None => NullDereference    (* m_maincpu is nullptr in m_maincpu->space(...) *)
    end.

Definition device_reset (bus : vme_device) : vme_device := bus.


(** The space [m_prgspace] points to, and a call through the pointer. *)
Definition prgspace (bus : vme_device) : option address_space :=
  match m_prgspace bus with
  | Some own_program => Some (program bus)
  | Some (cpu_program_of tag) => option_map cpu_program (subdevice (owner_cpus bus) tag)
  | None => None
  end.

Definition with_prgspace (bus : vme_device) (f : address_space -> address_space)
  : outcome vme_device :=
  match m_prgspace bus with
  | Some own_program =>
      Done (VmeDevice (f (program bus)) (m_allocspaces bus) (m_cputag bus)
                      (m_maincpu bus) (m_prgspace bus) (m_prgwidth bus)
                      (m_device_list bus) (owner_cpus bus))
  | Some (cpu_program_of tag) =>
      match subdevice (owner_cpus bus) tag with
      | Some _ =>
          Done (VmeDevice (program bus) (m_allocspaces bus) (m_cputag bus)
                          (m_maincpu bus) (m_prgspace bus) (m_prgwidth bus)
                          (m_device_list bus)
                          (update_subdevice (owner_cpus bus) tag
                             (fun d => CpuDevice (f (cpu_program d)))))
      | None => NullDereference
      end
  | None => NullDereference
  end.

(** The data width named in the fatal messages of an overload. *)
Definition data_label (k : delegate_kind) : string :=
  match k with
  | delegate8 | delegate8sm | delegate8smo => "D8"
  | delegate16 => "D16"
  | delegate32 => "D32"
  end.

Definition amod_format (k : delegate_kind) : string :=
  match k with
  | delegate8 | delegate8sm | delegate8smo =>
      "VME D8: Non supported Address modifier: AM%02x" ++ nl
  | delegate16 => "VME D16: Non supported Address modifier: %02x" ++ nl
  | delegate32 => "VME D32: Non supported Address modifier: %02x" ++ nl
  end%string.

Definition width_format (k : delegate_kind) : string :=
  ("VME " ++ data_label k ++ ": Bus width %d not supported" ++ nl)%string.

Section AddressModifiers.

(** The single-cycle modifiers of [vme_amod_t]; the enum is declared in
    vme.h, so its values are parameters here. *)
Variables A16_SC A24_SC A32_SC : Z.

Definition single_cycle (amod : Z) : bool :=
  (amod =? A16_SC) || (amod =? A24_SC) || (amod =? A32_SC).

(** The five overloads of [install_device] have one body; they differ in
    the delegate types and in the text of their fatal messages. *)
Definition install_device_as (k : delegate_kind) (amod start end_ : Z)
    (rhandler whandler : string) (mask : Z) (bus : vme_device)
  : outcome vme_device :=
  if single_cycle amod then
    if m_prgwidth bus =? 16 then
      with_prgspace bus (fun space =>
        install_readwrite_handler space
          (HandlerEntry start end_ k rhandler whandler
             (to_uint16 (Z.land mask 0x0000ffff))))
    else if m_prgwidth bus =? 24 then
      with_prgspace bus (fun space =>
        install_readwrite_handler space
          (HandlerEntry start end_ k rhandler whandler
             (to_uint32 (Z.land mask 0x00ffffff))))
    else if m_prgwidth bus =? 32 then
      with_prgspace bus (fun space =>
        install_readwrite_handler space
          (HandlerEntry start end_ k rhandler whandler mask))
    else Fatal (Message (width_format k) (m_prgwidth bus)) bus
  else Fatal (Message (amod_format k) amod) bus.

Definition install_device_8 := install_device_as delegate8.
Definition install_device_8sm := install_device_as delegate8sm.
Definition install_device_8smo := install_device_as delegate8smo.
Definition install_device_16 := install_device_as delegate16.
Definition install_device_32 := install_device_as delegate32.

End AddressModifiers.



(** The constructor of the bus: [m_a32_config] is 32 bits wide and has no
    internal map, [m_allocspaces(true)], [m_cputag("maincpu")], an empty
    device list.  The members it does not initialise, and the cpus of the
    owner, are arguments. *)
Definition bus_constructed (maincpu : option string) (space : option space_pointer)
    (width : Z) (cpus : list (string * cpu_device)) : vme_device :=
  VmeDevice (AddressSpace 32 []) true "maincpu" maincpu space width [] cpus.

(** The enable mask the width switch of [install_device] passes on. *)
Definition enable_mask (width mask : Z) : Z :=
  if width =? 16 then to_uint16 (Z.land mask 0x0000ffff)
  else if width =? 24 then to_uint32 (Z.land mask 0x00ffffff)
  else mask.

(** The bus is started: [m_prgspace] points to a space and [m_prgwidth] is
    the data width of that space. *)
Definition started (bus : vme_device) : bool :=
  match prgspace bus with
  | Some space => m_prgwidth bus =? data_width space
  | None => false
  end.

Definition outcome_map {S : Type} (f : S -> S) (o : outcome S) : outcome S :=
  match o with
  | Done s => Done (f s)
  | Fatal m s => Fatal m (f s)
  | NullDereference => NullDereference
  end.

End VME.

(* ================================================================== *)
(** ** Easi-Speech cartridge (easi_speech.cpp) *)

Module EasiSpeech.

(** What the cartridge installs in a page of the slot. *)
Inductive installation : Type :=
  | install_rom (addrstart addrend addrmirror : Z) (base : list Z)
  | install_read_handler (addrstart addrend : Z) (handler : string)
  | install_write_handler (addrstart addrend : Z) (handler : string).

Record msx_cart_easispeech_device : Type := EasiSpeechCart {
  cart_rom_region : option (list Z);         (* [None] is nullptr *)
  pages : list (Z * installation)            (* page number, what was installed *)
}.

Record initialize_result : Type := InitializeResult {
  init_error : APF.error_condition;
  init_message : string;
  init_device : msx_cart_easispeech_device
}.

Definition bytes (region : list Z) : Z := to_uint32 (Z.of_nat (length region)).

Definition initialize_cartridge (message : string) (d : msx_cart_easispeech_device)
  : initialize_result :=
  match cart_rom_region d with
  | None =>
      InitializeResult (Some APF.INTERNAL)
        "msx_cart_easispeech_device: Required region 'rom' was not found." d
  | Some region =>
      if negb (bytes region =? 0x2000) then
        InitializeResult (Some APF.INVALIDLENGTH)
          "msx_cart_easispeech_device: Region 'rom' has unsupported size." d
      else
        InitializeResult None message
          (EasiSpeechCart (cart_rom_region d)
             (pages d ++
              [ (1, install_rom 0x4000 0x5fff 0x2000 region);
                (2, install_read_handler 0x8000 0x8000 "speech_r");
                (2, install_write_handler 0x8000 0x8000 "speech_w") ]))
  end.

(** [return m_speech->lrq_r() << 7] as a [u8]; [lrq] is what [lrq_r]
    answers. *)
Definition speech_r (lrq : Z) : Z := to_uint8 (Z.shiftl lrq 7).

End EasiSpeech.

(* ================================================================== *)
(** ** Properties of the APF cartridge slot *)

Module APFTheory.
Import APF.

Lemma resize_length (v : list Z) (n : nat) : length (resize v n) = n.
Proof.
  unfold resize.
  rewrite length_app, length_firstn, repeat_length.
  lia.
Qed.

Lemma ram_alloc_size (size : Z) (c : device_apf_cart_interface) :
  0 <= size -> Z.of_nat (length (m_ram (ram_alloc size c))) = size.
Proof.
  intros Hsize. unfold ram_alloc; simpl.
  rewrite resize_length. apply Z2Nat.id, Hsize.
Qed.

Lemma to_uint32_small (z : Z) : 0 <= z < 2 ^ 32 -> to_uint32 z = z.
Proof. intros Hz. unfold to_uint32. apply Z.mod_small, Hz. Qed.

Lemma to_uint64_small (z : Z) : 0 <= z < 2 ^ 64 -> to_uint64 z = z.
Proof. intros Hz. unfold to_uint64. apply Z.mod_small, Hz. Qed.

(** For a raw image shorter than 2^32 bytes the loader's [size] is the
    length of the file. *)
Lemma load_size_raw (img : image) :
  loaded_through_softlist img = false ->
  length_of img < 2 ^ 32 ->
  load_size img = length_of img.
Proof.
  intros Hraw Hlen. unfold load_size. rewrite Hraw. simpl.
  apply to_uint32_small. unfold length_of in *. lia.
Qed.

(** The [size] of [call_load] is a 32-bit value, and never more than the
    number of bytes there are to copy. *)
Lemma load_size_range (img : image) : 0 <= load_size img < 2 ^ 32.
Proof. unfold load_size, to_uint32. apply Z.mod_pos_bound. reflexivity. Qed.

Lemma load_size_le_source (img : image) :
  load_size img <= Z.of_nat (length (rom_source img)).
Proof.
  unfold load_size, rom_source, length_of, get_software_region_length, to_uint32.
  destruct (loaded_through_softlist img); simpl;
    [destruct (get_software_region img "rom"); simpl |];
    apply Z.mod_le; lia.
Qed.

(** *** The ROM pointer after [rom_alloc] *)

Lemma rom_alloc_guard (size : Z) (mem : memory) (c : device_apf_cart_interface) :
  m_rom c <> None -> rom_alloc size (mem, c) = (mem, c).
Proof.
  intros Hrom. unfold rom_alloc.
  destruct (m_rom c); [reflexivity | contradiction].
Qed.

Lemma region_base_last (mem : memory) (r : memory_region) :
  region_base (mem ++ [r]) (length mem) = Some (region_bytes r).
Proof.
  unfold region_base. rewrite nth_error_app2 by lia.
  rewrite Nat.sub_diag. reflexivity.
Qed.

Lemma region_base_before (mem : memory) (r : memory_region) (p : nat) :
  (p < length mem)%nat -> region_base (mem ++ [r]) p = region_base mem p.
Proof.
  intros Hp. unfold region_base. rewrite nth_error_app1 by exact Hp. reflexivity.
Qed.

(** On a card without ROM, [rom_alloc] adds a region of [size] zero bytes
    after the regions there are; the card gets its base, which is null when
    the size is 0. *)
Lemma rom_alloc_fresh (size : Z) (mem : memory) (c : device_apf_cart_interface) :
  m_rom c = None ->
  rom_alloc size (mem, c)
  = (mem ++ [MemoryRegion rom_tag (repeat 0 (Z.to_nat size))],
     Cart (if 0 <? size then Some (length mem) else None) size (m_ram c)).
Proof.
  intros Hrom. unfold rom_alloc, region_alloc, base. rewrite Hrom.
  rewrite region_base_last. simpl.
  destruct (Z.ltb_spec 0 size) as [Hpos | Hzero].
  - destruct (Z.to_nat size) eqn:Hn; [lia | reflexivity].
  - replace (Z.to_nat size) with 0%nat by lia. reflexivity.
Qed.

(** After [rom_alloc] with a size above 0 the card has a ROM pointer. *)
Lemma rom_alloc_allocated (size : Z) (mem : memory) (c : device_apf_cart_interface) :
  m_rom c <> None \/ 0 < size ->
  m_rom (snd (rom_alloc size (mem, c))) <> None.
Proof.
  intros Hcan. destruct (m_rom c) eqn:Hrom.
  - rewrite rom_alloc_guard by (rewrite Hrom; discriminate).
    simpl. rewrite Hrom. discriminate.
  - destruct Hcan as [H | Hpos]; [contradiction |].
    rewrite (rom_alloc_fresh size mem c Hrom). simpl.
    apply Z.ltb_lt in Hpos. rewrite Hpos. discriminate.
Qed.

(** Two allocations in a row: the second one changes nothing, unless the
    first one was of no bytes on a card without ROM. *)
Lemma rom_alloc_twice (size1 size2 : Z) (mem : memory) (c : device_apf_cart_interface) :
  m_rom c <> None \/ 0 < size1 ->
  rom_alloc size2 (rom_alloc size1 (mem, c)) = rom_alloc size1 (mem, c).
Proof.
  intros Hcan.
  pose proof (rom_alloc_allocated size1 mem c Hcan) as Halloc.
  destruct (rom_alloc size1 (mem, c)) as [mem1 c1]; simpl in Halloc.
  apply rom_alloc_guard, Halloc.
Qed.

Lemma apf_get_pcb_id_unknown (name : string) :
  ~ In name (map slot_option slot_list) -> apf_get_pcb_id name = 0.
Proof.
  intros Hnot. unfold apf_get_pcb_id.
  induction slot_list as [|elem rest IH]; simpl in *.
  - reflexivity.
  - destruct (String.eqb_spec (slot_option elem) name) as [Heq | Hneq].
    + exfalso. apply Hnot. left. exact Heq.
    + apply IH. intros Hin. apply Hnot. right. exact Hin.
Qed.

(** *** The copy into the ROM buffer *)

Lemma store_region_fits (mem : memory) (p : nat) (src bytes : list Z) :
  region_base mem p = Some bytes ->
  (length src <= length bytes)%nat ->
  exists mem',
    store_region mem p src = Some mem' /\
    length mem' = length mem /\
    region_base mem' p = Some (src ++ skipn (length src) bytes) /\
    (forall q, p <> q -> region_base mem' q = region_base mem q).
Proof.
  unfold region_base.
  revert p. induction mem as [|r rest IH]; intros p Hbase Hfits.
  - destruct p; discriminate.
  - destruct p as [|p']; simpl in *.
    + injection Hbase as <-. unfold overwrite.
      apply Nat.leb_le in Hfits. rewrite Hfits. simpl.
      eexists. split; [reflexivity |]. split; [reflexivity |].
      split; [reflexivity |].
      intros [|q] Hq; [contradiction | reflexivity].
    + destruct (IH p' Hbase Hfits) as (mem' & Hstore & Hlen & Hat & Hother).
      rewrite Hstore. simpl.
      eexists. split; [reflexivity |]. simpl.
      split; [rewrite Hlen; reflexivity |]. split; [exact Hat |].
      intros [|q] Hq; [reflexivity |].
      apply Hother. intros ->. apply Hq. reflexivity.
Qed.

Lemma store_region_overrun (mem : memory) (p : nat) (src : list Z) :
  match region_base mem p with
  | Some bytes => (length bytes < length src)%nat
  | None => True
  end ->
  store_region mem p src = None.
Proof.
  unfold region_base.
  revert p. induction mem as [|r rest IH]; intros p Hover.
  - destruct p; reflexivity.
  - destruct p as [|p']; simpl in *.
    + unfold overwrite.
      destruct (Nat.leb_spec (length src) (length (region_bytes r))); [lia | reflexivity].
    + rewrite (IH p' Hover). reflexivity.
Qed.

Lemma copy_bytes_nothing (mem : memory) (dst : option nat) (src : list Z) (size : Z) :
  size <= 0 -> copy_bytes mem dst src size = Some mem.
Proof.
  intros Hzero. unfold copy_bytes.
  replace (Z.to_nat size) with 0%nat by lia. reflexivity.
Qed.

Lemma copy_bytes_fits (mem : memory) (p : nat) (src bytes : list Z) (size : Z) :
  region_base mem p = Some bytes ->
  size <= Z.of_nat (length bytes) ->
  exists mem',
    copy_bytes mem (Some p) src size = Some mem' /\
    length mem' = length mem /\
    region_base mem' p
    = Some (firstn (Z.to_nat size) src
            ++ skipn (length (firstn (Z.to_nat size) src)) bytes) /\
    (forall q, p <> q -> region_base mem' q = region_base mem q).
Proof.
  intros Hbase Hfits. unfold copy_bytes.
  assert (Hlen : (length (firstn (Z.to_nat size) src) <= length bytes)%nat)
    by (rewrite length_firstn; lia).
  destruct (firstn (Z.to_nat size) src) as [|x copy] eqn:Hcopy.
  - exists mem. split; [reflexivity |]. split; [reflexivity |].
    split; [exact Hbase |]. intros q _. reflexivity.
  - apply store_region_fits; assumption.
Qed.

Lemma copy_bytes_overrun (mem : memory) (dst : option nat) (src : list Z) (size : Z) :
  0 < size <= Z.of_nat (length src) ->
  match dst with
  | Some p =>
      match region_base mem p with
      | Some bytes => Z.of_nat (length bytes) < size
      | None => True
      end
  | None => True
  end ->
  copy_bytes mem dst src size = None.
Proof.
  intros Hsize Hover. unfold copy_bytes.
  assert (Hlen : length (firstn (Z.to_nat size) src) = Z.to_nat size)
    by (rewrite length_firstn; lia).
  destruct (firstn (Z.to_nat size) src) as [|x copy] eqn:Hcopy.
  - simpl in Hlen. lia.
  - destruct dst as [p|]; [| reflexivity].
    apply store_region_overrun.
    destruct (region_base mem p) as [bytes|]; [| exact I].
    rewrite Hlen. lia.
Qed.

(** What [load_copy] copies is the front of [rom_source]. *)
Lemma load_copy_source (img : image) (mem : memory) (c : device_apf_cart_interface) :
  load_copy img mem c (load_size img)
  = copy_bytes mem (m_rom c) (rom_source img) (load_size img).
Proof.
  unfold load_copy, rom_source, fread, memcpy, get_rom_base.
  destruct (loaded_through_softlist img) eqn:Hsoft; simpl; [| reflexivity].
  destruct (get_software_region img "rom") as [bytes|] eqn:Hregion; [reflexivity |].
  assert (Hzero : load_size img = 0).
  { unfold load_size, get_software_region_length. rewrite Hsoft, Hregion. reflexivity. }
  rewrite Hzero. reflexivity.
Qed.

(** The variant step leaves the ROM fields of the card alone. *)
Lemma load_variant_rom (img : image) (s : apf_cart_slot_device)
    (c : device_apf_cart_interface) (size : Z) :
  m_rom (snd (load_variant img s c size)) = m_rom c /\
  m_rom_size (snd (load_variant img s c size)) = m_rom_size c.
Proof.
  unfold load_variant.
  destruct (loaded_through_softlist img); simpl.
  - destruct (get_software_region img "ram"); split; reflexivity.
  - destruct (size =? 0x1800); split; reflexivity.
Qed.

Lemma load_variant_raw (img : image) (s : apf_cart_slot_device)
    (c : device_apf_cart_interface) (size : Z) :
  loaded_through_softlist img = false ->
  load_variant img s c size
  = (default_card_type size, if size =? 0x1800 then ram_alloc 0x400 c else c).
Proof.
  intros Hraw. unfold load_variant, default_card_type. rewrite Hraw. simpl.
  destruct (size =? 0x1800); reflexivity.
Qed.

(** A load that passes the size test is [rom_alloc], the copy, and the
    variant step. *)
Lemma call_load_steps (img : image) (mem : memory)
    (s : apf_cart_slot_device) (cart : device_apf_cart_interface) :
  m_cart s = Some cart ->
  load_size img <= 0x3800 ->
  call_load img mem s
  = match load_copy img (fst (rom_alloc (load_size img) (mem, cart)))
                        (snd (rom_alloc (load_size img) (mem, cart))) (load_size img) with
    | None => BufferOverrun
    | Some mem2 =>
        Returned
          (LoadResult None mem2
             (Slot (fst (load_variant img s
                           (snd (rom_alloc (load_size img) (mem, cart))) (load_size img)))
                   (Some (snd (load_variant img s
                           (snd (rom_alloc (load_size img) (mem, cart))) (load_size img)))))
             [])
    end.
Proof.
  intros Hcart Hok. unfold call_load. rewrite Hcart.
  destruct (Z.ltb_spec 0x3800 (load_size img)) as [Hbig | _]; [lia |].
  destruct (rom_alloc (load_size img) (mem, cart)) as [mem1 cart1]. simpl.
  destruct (load_copy img mem1 cart1 (load_size img)); [| reflexivity].
  destruct (load_variant img s cart1 (load_size img)). reflexivity.
Qed.

(** The copy succeeds exactly when the ROM buffer holds the image. *)
Lemma load_copy_holds (img : image) (mem : memory) (cart : device_apf_cart_interface) :
  rom_holds mem cart (load_size img) = true ->
  exists mem2,
    load_copy img (fst (rom_alloc (load_size img) (mem, cart)))
                  (snd (rom_alloc (load_size img) (mem, cart))) (load_size img)
    = Some mem2.
Proof.
  intros Hholds. rewrite load_copy_source.
  pose proof (load_size_range img) as Hrange.
  unfold rom_holds in Hholds.
  destruct (m_rom cart) as [p|] eqn:Hrom.
  - rewrite rom_alloc_guard by (rewrite Hrom; discriminate). simpl. rewrite Hrom.
    destruct (Z.leb_spec (load_size img) 0) as [Hzero | Hpos].
    + eexists. apply copy_bytes_nothing, Hzero.
    + simpl in Hholds.
      destruct (region_base mem p) as [bytes|] eqn:Hbase; [| discriminate].
      apply Z.leb_le in Hholds.
      destruct (copy_bytes_fits mem p (rom_source img) bytes (load_size img) Hbase Hholds)
        as (mem' & Hcopy & _).
      exists mem'. exact Hcopy.
  - rewrite (rom_alloc_fresh (load_size img) mem cart Hrom). simpl.
    destruct (Z.ltb_spec 0 (load_size img)) as [Hpos | Hzero].
    + destruct (copy_bytes_fits
                  (mem ++ [MemoryRegion rom_tag (repeat 0 (Z.to_nat (load_size img)))])
                  (length mem) (rom_source img)
                  (repeat 0 (Z.to_nat (load_size img))) (load_size img))
        as (mem' & Hcopy & _).
      * apply region_base_last.
      * rewrite repeat_length. lia.
      * exists mem'. exact Hcopy.
    + eexists. apply copy_bytes_nothing, Hzero.
Qed.

Lemma load_copy_overruns (img : image) (mem : memory) (cart : device_apf_cart_interface) :
  m_rom cart <> None ->
  rom_holds mem cart (load_size img) = false ->
  load_copy img (fst (rom_alloc (load_size img) (mem, cart)))
                (snd (rom_alloc (load_size img) (mem, cart))) (load_size img)
  = None.
Proof.
  intros Hset Hholds. rewrite load_copy_source.
  pose proof (load_size_le_source img) as Hsource.
  unfold rom_holds in Hholds.
  destruct (m_rom cart) as [p|] eqn:Hrom; [| contradiction].
  rewrite rom_alloc_guard by (rewrite Hrom; discriminate). simpl. rewrite Hrom.
  apply orb_false_iff in Hholds. destruct Hholds as [Hpos Hsmall].
  apply Z.leb_gt in Hpos.
  apply copy_bytes_overrun; [lia |].
  destruct (region_base mem p) as [bytes|]; [| exact I].
  apply Z.leb_gt in Hsmall. exact Hsmall.
Qed.

(** A load that passes the size test and whose ROM buffer holds the image
    returns with the empty error condition, the card of [load_variant] and
    nothing printed. *)
Lemma call_load_returns (img : image) (mem : memory)
    (s : apf_cart_slot_device) (cart : device_apf_cart_interface) :
  m_cart s = Some cart ->
  load_size img <= 0x3800 ->
  rom_holds mem cart (load_size img) = true ->
  exists mem2,
    load_copy img (fst (rom_alloc (load_size img) (mem, cart)))
                  (snd (rom_alloc (load_size img) (mem, cart))) (load_size img)
    = Some mem2 /\
    call_load img mem s
    = Returned
        (LoadResult None mem2
           (Slot (fst (load_variant img s
                         (snd (rom_alloc (load_size img) (mem, cart))) (load_size img)))
                 (Some (snd (load_variant img s
                         (snd (rom_alloc (load_size img) (mem, cart))) (load_size img)))))
           []).
Proof.
  intros Hcart Hok Hholds.
  destruct (load_copy_holds img mem cart Hholds) as (mem2 & Hcopy).
  exists mem2. split; [exact Hcopy |].
  rewrite (call_load_steps img mem s cart Hcart Hok), Hcopy. reflexivity.
Qed.

(** The two returns of [call_load] that copy nothing. *)
Lemma call_load_no_card (img : image) (mem : memory) (s : apf_cart_slot_device) :
  m_cart s = None -> call_load img mem s = Returned (LoadResult None mem s []).
Proof. intros Hcart. unfold call_load. rewrite Hcart. reflexivity. Qed.

Lemma call_load_too_long (img : image) (mem : memory)
    (s : apf_cart_slot_device) (cart : device_apf_cart_interface) :
  m_cart s = Some cart ->
  0x3800 < load_size img ->
  call_load img mem s
  = Returned (LoadResult (Some INVALIDLENGTH) mem s [length_message img]).
Proof.
  intros Hcart Hsize. unfold call_load. rewrite Hcart.
  apply Z.ltb_lt in Hsize. rewrite Hsize. reflexivity.
Qed.

(** C7. [rom_alloc] is idempotent: on a card whose ROM is already allocated
    ([m_rom] is not null) a call with any size changes nothing: the base
    pointer, the recorded ROM size, the stored bytes and the regions of the
    machine are the same, so no region is allocated again. *)
Theorem rom_alloc_idempotent (size : Z) (mem : memory) (c : device_apf_cart_interface) :
  m_rom c <> None ->
  rom_alloc size (mem, c) = (mem, c) /\
  m_rom (snd (rom_alloc size (mem, c))) = m_rom c /\
  m_rom_size (snd (rom_alloc size (mem, c))) = m_rom_size c /\
  (forall base, region_base (fst (rom_alloc size (mem, c))) base = region_base mem base) /\
  length (fst (rom_alloc size (mem, c))) = length mem.
Proof.
  intros Hrom. rewrite (rom_alloc_guard size mem c Hrom). simpl.
  repeat split; reflexivity.
Qed.

Lemma rom_alloc_idempotent_witness :
  let mem := [MemoryRegion rom_tag [1; 2; 3]] in
  let c := Cart (Some 0%nat) 3 [] in
  m_rom c <> None /\
  rom_alloc 0x2000 (mem, c) = (mem, c) /\
  region_base (fst (rom_alloc 0x2000 (mem, c))) 0 = Some [1; 2; 3].
Proof.
  intros mem c.
  assert (Hrom : m_rom c <> None) by (simpl; discriminate).
  split; [exact Hrom |].
  destruct (rom_alloc_idempotent 0x2000 mem c Hrom) as (Heq & _ & _ & Hbytes & _).
  split; [exact Heq | rewrite Hbytes; reflexivity].
Defined.

(** C10. [ram_alloc] has no guard: every call resizes the RAM to the
    requested size, so after [ram_alloc s1] then [ram_alloc s2] the RAM has
    [s2] bytes, also on a card whose RAM was allocated before. *)
Theorem ram_alloc_resizes (s1 s2 : Z) (c : device_apf_cart_interface) :
  0 <= s1 -> 0 <= s2 ->
  Z.of_nat (length (m_ram (ram_alloc s1 c))) = s1 /\
  Z.of_nat (length (m_ram (ram_alloc s2 (ram_alloc s1 c)))) = s2.
Proof.
  intros H1 H2. split; apply ram_alloc_size; assumption.
Qed.

Lemma ram_alloc_resizes_witness :
  0 <= 0x400 /\ 0 <= 0x10 /\
  Z.of_nat (length (m_ram (ram_alloc 0x10 (ram_alloc 0x400 cart_constructed)))) = 0x10.
Proof.
  assert (H1 : 0 <= 0x400) by (apply Z.leb_le; reflexivity).
  assert (H2 : 0 <= 0x10) by (apply Z.leb_le; reflexivity).
  split; [exact H1 | split; [exact H2 |]].
  exact (proj2 (ram_alloc_resizes 0x400 0x10 cart_constructed H1 H2)).
Defined.

(** C9. With no card device attached ([m_cart] is null) [call_load] returns
    the empty error condition and does nothing else: the regions of the
    machine and the slot, its variant tag included, are as before and nothing
    is printed. *)
Theorem call_load_without_card (img : image) (mem : memory) (s : apf_cart_slot_device) :
  m_cart s = None ->
  call_load img mem s = Returned (LoadResult None mem s []).
Proof.
  intros Hcart. unfold call_load. rewrite Hcart. reflexivity.
Qed.

Lemma call_load_without_card_witness :
  let img := Image false "big.bin" (repeat 0 0x3801) [] [] in
  let s := Slot APF_SPACEDST None in
  m_cart s = None /\
  call_load img [] s = Returned (LoadResult None [] s []).
Proof.
  intros img s. split; [reflexivity |].
  apply (call_load_without_card img [] s). reflexivity.
Defined.

(** When the 32-bit [size] of [call_load] exceeds 0x3800 the image is refused
    with a length error and nothing is left behind: the regions of the
    machine and the slot are as before, only the error message is printed,
    and a card that was not populated still reads 0xFF through the slot at
    every offset.  For a raw image of less than 2^32 bytes that size is the
    length of the file (see [load_size_raw]). *)
Lemma call_load_oversized (img : image) (mem : memory)
    (s : apf_cart_slot_device) (cart : device_apf_cart_interface) :
  m_cart s = Some cart ->
  m_rom cart = None ->
  0x3800 < load_size img ->
  call_load img mem s
  = Returned (LoadResult (Some INVALIDLENGTH) mem s [length_message img]) /\
  (forall offset, read_rom spec_card_read_rom mem s offset = 0xff).
Proof.
  intros Hcart Hrom Hsize.
  split; [apply (call_load_too_long img mem s cart Hcart Hsize) |].
  intros offset. unfold read_rom. rewrite Hcart.
  unfold spec_card_read_rom. rewrite Hrom. reflexivity.
Qed.

(** A raw image of 2^32 + 0x1800 bytes into a card without ROM, whose
    region does not exist yet: the size wraps to 0x1800 and the image is
    loaded. *)
Lemma call_load_wrapped (img : image) (mem : memory)
    (s : apf_cart_slot_device) (cart : device_apf_cart_interface) :
  loaded_through_softlist img = false ->
  m_cart s = Some cart ->
  m_rom cart = None ->
  region_taken mem rom_tag = false ->
  length_of img = 2 ^ 32 + 0x1800 ->
  load_size img = 0x1800 /\
  exists r,
    call_load img mem s = Returned r /\
    load_error r = None /\
    load_printed r = [] /\
    m_type (load_slot r) = APF_SPACEDST /\
    exists cart',
      m_cart (load_slot r) = Some cart' /\
      m_rom cart' = Some (length mem) /\
      m_rom_size cart' = 0x1800.
Proof.
  intros Hraw Hcart Hrom Hfree Hlen.
  assert (Hsize : load_size img = 0x1800).
  { unfold load_size. rewrite Hraw. simpl. rewrite Hlen. reflexivity. }
  split; [exact Hsize |].
  assert (Hholds : rom_holds mem cart (load_size img) = true)
    by (unfold rom_holds; rewrite Hrom, Hfree; reflexivity).
  assert (Hok : load_size img <= 0x3800) by (rewrite Hsize; discriminate).
  destruct (call_load_returns img mem s cart Hcart Hok Hholds) as (mem2 & _ & Hrun).
  rewrite (load_variant_raw img s _ _ Hraw) in Hrun.
  rewrite (rom_alloc_fresh _ mem cart Hrom), Hsize in Hrun.
  eexists. split; [exact Hrun |].
  split; [reflexivity |]. split; [reflexivity |]. split; [reflexivity |].
  eexists. split; [reflexivity |]. split; reflexivity.
Qed.

(** C4. The size test of [call_load] does not refuse every image of more
    than 0x3800 bytes: the length of the file is kept in 32 bits, so for a raw
    image of 2^32 + 0x1800 bytes the size is 0x1800, no length error is
    returned, the ROM is allocated and the variant APF_SPACEDST selected. *)
Theorem call_load_size_wraps :
  let img := Image false "huge.bin" (repeat 0 (Z.to_nat (2 ^ 32 + 0x1800))) [] [] in
  let s := Slot APF_STD (Some cart_constructed) in
  0x3800 < length_of img /\
  load_size img = 0x1800 /\
  exists r,
    call_load img [] s = Returned r /\
    load_error r = None /\
    load_printed r = [] /\
    m_type (load_slot r) = APF_SPACEDST /\
    exists cart',
      m_cart (load_slot r) = Some cart' /\
      m_rom cart' = Some 0%nat /\
      m_rom_size cart' = 0x1800.
Proof.
  intros img s.
  assert (Hlen : length_of img = 2 ^ 32 + 0x1800).
  { unfold length_of.
    change (file_data img) with (repeat 0 (Z.to_nat (2 ^ 32 + 0x1800))).
    rewrite repeat_length. apply Z2Nat.id. discriminate. }
  split; [rewrite Hlen; reflexivity |].
  exact (call_load_wrapped img [] s cart_constructed eq_refl eq_refl eq_refl eq_refl Hlen).
Qed.

(** The variant the size heuristic picks, read off the two tests of the
    source. *)
Lemma default_card_type_cases (size : Z) :
  (size = 0x1800 -> default_card_type size = APF_SPACEDST) /\
  (0x2000 < size -> default_card_type size = APF_BASIC) /\
  (size <> 0x1800 -> size <= 0x2000 -> default_card_type size = APF_STD).
Proof.
  unfold default_card_type. repeat split.
  - intros ->. reflexivity.
  - intros Hbig. apply Z.ltb_lt in Hbig. rewrite Hbig. reflexivity.
  - intros Hne Hle.
    apply Z.eqb_neq in Hne. rewrite Hne.
    destruct (Z.ltb_spec 0x2000 size); [lia | reflexivity].
Qed.

(** The raw-image path of [call_load] on an accepted size. *)
Lemma call_load_raw (img : image) (mem : memory)
    (s : apf_cart_slot_device) (cart : device_apf_cart_interface) :
  loaded_through_softlist img = false ->
  m_cart s = Some cart ->
  length_of img <= 0x3800 ->
  rom_holds mem cart (length_of img) = true ->
  exists loaded cart',
    call_load img mem s = Returned loaded /\
    load_error loaded = None /\
    m_type (load_slot loaded) = default_card_type (length_of img) /\
    m_cart (load_slot loaded) = Some cart' /\
    (length_of img = 0x1800 -> Z.of_nat (length (m_ram cart')) = 0x400) /\
    (length_of img <> 0x1800 -> m_ram cart' = m_ram cart).
Proof.
  intros Hraw Hcart Hlen Hholds.
  assert (Hsize : load_size img = length_of img)
    by (apply load_size_raw; [exact Hraw | lia]).
  rewrite <- Hsize in Hholds.
  assert (Hok : load_size img <= 0x3800) by lia.
  destruct (call_load_returns img mem s cart Hcart Hok Hholds) as (mem2 & _ & Hrun).
  rewrite (load_variant_raw img s _ _ Hraw) in Hrun. simpl in Hrun.
  rewrite Hsize in Hrun.
  assert (Hram : m_ram (snd (rom_alloc (length_of img) (mem, cart))) = m_ram cart).
  { unfold rom_alloc. destruct (m_rom cart); reflexivity. }
  eexists. eexists. split; [exact Hrun |]. simpl.
  split; [reflexivity |]. split; [reflexivity |]. split; [reflexivity |].
  destruct (Z.eqb_spec (length_of img) 0x1800) as [Heq | Hne].
  - split; [intros _; apply ram_alloc_size; lia | intros Hne; contradiction].
  - split; [intros Heq; contradiction | intros _; exact Hram].
Qed.

(** C5. On a raw image of an accepted size (at most 0x3800 bytes), loaded
    into a card whose ROM buffer holds it (a card without ROM and without a
    ROM region yet, or a ROM of at least that size), the load path and the
    pure query
    [get_default_card_software] select the same variant: the query answers
    the slot option of the type the load stores.  A size of 0x1800 gives
    APF_SPACEDST (option spacedst) and the load resizes the RAM to exactly
    0x400 bytes; a size above 0x2000 gives APF_BASIC (option basic); any other
    size gives APF_STD (option std). *)
Theorem heuristic_paths_agree (img : image) (mem : memory)
    (s : apf_cart_slot_device) (cart : device_apf_cart_interface)
    (default_slot : string) :
  loaded_through_softlist img = false ->
  m_cart s = Some cart ->
  length_of img <= 0x3800 ->
  rom_holds mem cart (length_of img) = true ->
  let size := length_of img in
  let answer := get_default_card_software (Some (file_data img)) default_slot in
  exists loaded,
    call_load img mem s = Returned loaded /\
    load_error loaded = None /\
    answer = apf_get_slot (m_type (load_slot loaded)) /\
    (size = 0x1800 ->
       m_type (load_slot loaded) = APF_SPACEDST /\ answer = "spacedst" /\
       exists cart', m_cart (load_slot loaded) = Some cart' /\
                     Z.of_nat (length (m_ram cart')) = 0x400) /\
    (0x2000 < size ->
       m_type (load_slot loaded) = APF_BASIC /\ answer = "basic") /\
    (size <> 0x1800 -> size <= 0x2000 ->
       m_type (load_slot loaded) = APF_STD /\ answer = "std").
Proof.
  intros Hraw Hcart Hlen Hholds size answer.
  destruct (call_load_raw img mem s cart Hraw Hcart Hlen Hholds)
    as (loaded & cart' & Hrun & Herr & Htype & Hcart' & Hram & _).
  fold size in Htype, Hram.
  assert (Hanswer : answer = apf_get_slot (default_card_type size)).
  { unfold answer, get_default_card_software.
    change (Z.of_nat (length (file_data img))) with size.
    rewrite to_uint64_small; [reflexivity |].
    unfold size, length_of in *. lia. }
  destruct (default_card_type_cases size) as (Hspace & Hbasic & Hstd).
  exists loaded.
  split; [exact Hrun |].
  split; [exact Herr |].
  split; [rewrite Htype; exact Hanswer |].
  split; [| split].
  - intros Heq. rewrite Htype, Hanswer, (Hspace Heq).
    split; [reflexivity | split; [reflexivity |]].
    exists cart'. split; [exact Hcart' | exact (Hram Heq)].
  - intros Hbig. rewrite Htype, Hanswer, (Hbasic Hbig).
    split; reflexivity.
  - intros Hne Hle. rewrite Htype, Hanswer, (Hstd Hne Hle).
    split; reflexivity.
Qed.

Lemma heuristic_paths_agree_witness :
  let img := Image false "spacedst.bin" (repeat 0 0x1800) [] [] in
  let s := Slot APF_STD (Some cart_constructed) in
  loaded_through_softlist img = false /\
  m_cart s = Some cart_constructed /\
  length_of img <= 0x3800 /\
  rom_holds [] cart_constructed (length_of img) = true /\
  exists loaded,
    call_load img [] s = Returned loaded /\
    get_default_card_software (Some (file_data img)) "std"
    = apf_get_slot (m_type (load_slot loaded)) /\
    m_type (load_slot loaded) = APF_SPACEDST.
Proof.
  intros img s.
  assert (Hlen : length_of img <= 0x3800) by (apply Z.leb_le; vm_compute; reflexivity).
  split; [reflexivity | split; [reflexivity | split; [exact Hlen |]]].
  split; [reflexivity |].
  destruct (heuristic_paths_agree img [] s cart_constructed "std"
              eq_refl eq_refl Hlen eq_refl)
    as (loaded & Hrun & _ & Hagree & Hspace & _).
  exists loaded. split; [exact Hrun |]. split; [exact Hagree |].
  apply Hspace. vm_compute. reflexivity.
Defined.

(** C8. A slot name that is not in [slot_list] does not make the load fail:
    [apf_get_pcb_id] answers the default variant APF_STD (id 0), and a
    software-list image of an accepted size that carries such a name, loaded
    into a card whose ROM buffer holds it (a card without ROM and without a
    ROM region yet, or a ROM of at least that size), loads with the empty
    error condition and APF_STD as its type. *)
Theorem unknown_pcb_name_defaults (name : string) (img : image) (mem : memory)
    (s : apf_cart_slot_device) (cart : device_apf_cart_interface) :
  ~ In name (map slot_option slot_list) ->
  loaded_through_softlist img = true ->
  get_feature img "slot" = Some name ->
  m_cart s = Some cart ->
  load_size img <= 0x3800 ->
  rom_holds mem cart (load_size img) = true ->
  apf_get_pcb_id name = APF_STD /\
  exists loaded,
    call_load img mem s = Returned loaded /\
    load_error loaded = None /\
    m_type (load_slot loaded) = APF_STD.
Proof.
  intros Hunknown Hsoft Hfeature Hcart Hsize Hholds.
  pose proof (apf_get_pcb_id_unknown name Hunknown) as Hid.
  split; [exact Hid |].
  destruct (call_load_returns img mem s cart Hcart Hsize Hholds) as (mem2 & _ & Hrun).
  eexists. split; [exact Hrun |]. simpl.
  split; [reflexivity |].
  unfold load_variant. rewrite Hsoft, Hfeature, Hid. reflexivity.
Qed.

Lemma unknown_pcb_name_defaults_witness :
  let img := Image true "cart" [] [("rom", [1; 2; 3; 4])] [("slot", "turbo")] in
  let s := Slot APF_BASIC (Some cart_constructed) in
  ~ In "turbo" (map slot_option slot_list) /\
  loaded_through_softlist img = true /\
  get_feature img "slot" = Some "turbo" /\
  m_cart s = Some cart_constructed /\
  load_size img <= 0x3800 /\
  rom_holds [] cart_constructed (load_size img) = true /\
  apf_get_pcb_id "turbo" = APF_STD /\
  exists loaded,
    call_load img [] s = Returned loaded /\
    load_error loaded = None /\
    m_type (load_slot loaded) = APF_STD.
Proof.
  intros img s.
  assert (Hunknown : ~ In "turbo" (map slot_option slot_list)).
  { simpl. intros [H | [H | [H | []]]]; discriminate H. }
  assert (Hsize : load_size img <= 0x3800) by (apply Z.leb_le; vm_compute; reflexivity).
  split; [exact Hunknown |].
  split; [reflexivity | split; [reflexivity | split; [reflexivity |]]].
  split; [exact Hsize |]. split; [reflexivity |].
  exact (unknown_pcb_name_defaults "turbo" img [] s cart_constructed
           Hunknown eq_refl eq_refl eq_refl Hsize eq_refl).
Defined.

End APFTheory.

(* ================================================================== *)
(** ** Properties of the VME bus *)

Module VMETheory.
Import VME.

Lemma subdevice_update (l : list (string * cpu_device)) (tag : string)
    (f : cpu_device -> cpu_device) :
  subdevice (update_subdevice l tag f) tag = option_map f (subdevice l tag).
Proof.
  induction l as [|[t d] rest IH]; simpl.
  - reflexivity.
  - destruct (String.eqb t tag) eqn:Htag; simpl; rewrite Htag.
    + reflexivity.
    + exact IH.
Qed.

(** A call through [m_prgspace] changes the space it points to, and only
    that: the pointer and the width stay. *)
Lemma with_prgspace_done (bus : vme_device) (f : address_space -> address_space)
    (space : address_space) :
  prgspace bus = Some space ->
  exists bus',
    with_prgspace bus f = Done bus' /\
    prgspace bus' = Some (f space) /\
    m_prgspace bus' = m_prgspace bus /\
    m_prgwidth bus' = m_prgwidth bus.
Proof.
  unfold prgspace, with_prgspace.
  destruct (m_prgspace bus) as [[|tag]|] eqn:Hptr; intros Hspace.
  - injection Hspace as <-.
    eexists. split; [reflexivity |]. simpl. repeat split.
  - destruct (subdevice (owner_cpus bus) tag) as [cpu|] eqn:Hcpu; [| discriminate].
    simpl in Hspace. injection Hspace as <-.
    eexists. split; [reflexivity |]. simpl.
    rewrite subdevice_update, Hcpu. repeat split.
  - discriminate.
Qed.

Lemma land_uint16 (mask : Z) : to_uint16 (Z.land mask 0x0000ffff) = Z.land mask 0x0000ffff.
Proof.
  unfold to_uint16.
  change 0x0000ffff with (Z.ones 16).
  rewrite Z.land_ones by lia.
  apply Z.mod_mod. lia.
Qed.

Lemma land_uint24 (mask : Z) : to_uint32 (Z.land mask 0x00ffffff) = Z.land mask 0x00ffffff.
Proof.
  unfold to_uint32.
  change 0x00ffffff with (Z.ones 24).
  rewrite Z.land_ones by lia.
  apply Z.mod_small.
  pose proof (Z.mod_pos_bound mask (2 ^ 24)). lia.
Qed.

Lemma handler_at_installed (space : address_space) (e : handler_entry) (addr : Z) :
  addrstart e <= addr <= addrend e ->
  handler_at (install_readwrite_handler space e) addr = Some e.
Proof.
  intros [Hlo Hhi]. unfold handler_at, install_readwrite_handler, covers. simpl.
  apply Z.leb_le in Hlo, Hhi. rewrite Hlo, Hhi. reflexivity.
Qed.

Lemma single_cycle_true (A16_SC A24_SC A32_SC amod : Z) :
  amod = A16_SC \/ amod = A24_SC \/ amod = A32_SC ->
  single_cycle A16_SC A24_SC A32_SC amod = true.
Proof.
  unfold single_cycle. intros [-> | [-> | ->]]; rewrite Z.eqb_refl.
  - reflexivity.
  - apply orb_true_iff. left. apply orb_true_r.
  - apply orb_true_r.
Qed.

Lemma single_cycle_false (A16_SC A24_SC A32_SC amod : Z) :
  amod <> A16_SC -> amod <> A24_SC -> amod <> A32_SC ->
  single_cycle A16_SC A24_SC A32_SC amod = false.
Proof.
  unfold single_cycle. intros H16 H24 H32.
  apply Z.eqb_neq in H16, H24, H32. rewrite H16, H24, H32. reflexivity.
Qed.

(** C1. With a modifier among A16_SC, A24_SC and A32_SC and a bus width of
    16, 24 or 32, every overload of [install_device] returns and has
    installed the given handler pair over [start, end] in the space
    [m_prgspace] points to, with the mask cut to the width: [mask & 0xffff]
    at 16, [mask & 0xffffff] at 24, [mask] itself at 32.  An access at an
    address of the range then reaches that entry. *)
Theorem install_device_supported (A16_SC A24_SC A32_SC : Z) (k : delegate_kind)
    (amod start end_ : Z) (rhandler whandler : string) (mask : Z)
    (bus : vme_device) (space : address_space) :
  amod = A16_SC \/ amod = A24_SC \/ amod = A32_SC ->
  m_prgwidth bus = 16 \/ m_prgwidth bus = 24 \/ m_prgwidth bus = 32 ->
  prgspace bus = Some space ->
  exists bus' enable,
    install_device_as A16_SC A24_SC A32_SC k amod start end_ rhandler whandler mask bus
    = Done bus' /\
    prgspace bus'
    = Some (install_readwrite_handler space
              (HandlerEntry start end_ k rhandler whandler enable)) /\
    (m_prgwidth bus = 16 -> enable = Z.land mask 0x0000ffff) /\
    (m_prgwidth bus = 24 -> enable = Z.land mask 0x00ffffff) /\
    (m_prgwidth bus = 32 -> enable = mask) /\
    (forall addr, start <= addr <= end_ ->
       exists space', prgspace bus' = Some space' /\
         handler_at space' addr
         = Some (HandlerEntry start end_ k rhandler whandler enable)).
Proof.
  intros Hamod Hwidth Hspace.
  unfold install_device_as.
  rewrite (single_cycle_true _ _ _ _ Hamod).
  assert (Hreach : forall bus' enable,
    prgspace bus' = Some (install_readwrite_handler space
                            (HandlerEntry start end_ k rhandler whandler enable)) ->
    forall addr, start <= addr <= end_ ->
      exists space', prgspace bus' = Some space' /\
        handler_at space' addr
        = Some (HandlerEntry start end_ k rhandler whandler enable)).
  { intros bus' enable Hbus' addr Haddr.
    eexists. split; [exact Hbus' |].
    apply handler_at_installed. exact Haddr. }
  destruct Hwidth as [H16 | [H24 | H32]].
  - rewrite H16. simpl Z.eqb. cbv iota.
    destruct (with_prgspace_done bus
                (fun sp => install_readwrite_handler sp
                   (HandlerEntry start end_ k rhandler whandler
                      (to_uint16 (Z.land mask 0x0000ffff)))) space Hspace)
      as (bus' & Hrun & Hnew & _ & _).
    rewrite land_uint16 in Hrun, Hnew.
    exists bus', (Z.land mask 0x0000ffff).
    split; [rewrite <- Hrun, land_uint16; reflexivity |].
    split; [exact Hnew |].
    repeat split; try (intros; reflexivity); try (intros; discriminate).
    apply Hreach, Hnew.
  - rewrite H24. simpl Z.eqb. cbv iota.
    destruct (with_prgspace_done bus
                (fun sp => install_readwrite_handler sp
                   (HandlerEntry start end_ k rhandler whandler
                      (to_uint32 (Z.land mask 0x00ffffff)))) space Hspace)
      as (bus' & Hrun & Hnew & _ & _).
    rewrite land_uint24 in Hrun, Hnew.
    exists bus', (Z.land mask 0x00ffffff).
    split; [rewrite <- Hrun, land_uint24; reflexivity |].
    split; [exact Hnew |].
    repeat split; try (intros; reflexivity); try (intros; discriminate).
    apply Hreach, Hnew.
  - rewrite H32. simpl Z.eqb. cbv iota.
    destruct (with_prgspace_done bus
                (fun sp => install_readwrite_handler sp
                   (HandlerEntry start end_ k rhandler whandler mask)) space Hspace)
      as (bus' & Hrun & Hnew & _ & _).
    exists bus', mask.
    split; [exact Hrun |].
    split; [exact Hnew |].
    repeat split; try (intros; reflexivity); try (intros; discriminate).
    apply Hreach, Hnew.
Qed.

Lemma install_device_supported_witness :
  let bus := VmeDevice (AddressSpace 16 []) true "maincpu" None (Some own_program) 16 [] [] in
  let space := AddressSpace 16 [] in
  (0x29 = 0x29 \/ 0x29 = 0x39 \/ 0x29 = 0x09) /\
  (m_prgwidth bus = 16 \/ m_prgwidth bus = 24 \/ m_prgwidth bus = 32) /\
  prgspace bus = Some space /\
  exists bus' enable,
    install_device_as 0x29 0x39 0x09 delegate8 0x29 0xff00 0xffff "read8" "write8"
      0xffffffff bus = Done bus' /\
    prgspace bus'
    = Some (install_readwrite_handler space
              (HandlerEntry 0xff00 0xffff delegate8 "read8" "write8" enable)) /\
    enable = 0xffff.
Proof.
  intros bus space.
  assert (Hamod : 0x29 = 0x29 \/ 0x29 = 0x39 \/ 0x29 = 0x09) by (left; reflexivity).
  assert (Hwidth : m_prgwidth bus = 16 \/ m_prgwidth bus = 24 \/ m_prgwidth bus = 32)
    by (left; reflexivity).
  assert (Hspace : prgspace bus = Some space) by reflexivity.
  split; [exact Hamod | split; [exact Hwidth | split; [exact Hspace |]]].
  destruct (install_device_supported 0x29 0x39 0x09 delegate8 0x29 0xff00 0xffff
              "read8" "write8" 0xffffffff bus space Hamod Hwidth Hspace)
    as (bus' & enable & Hrun & Hnew & H16 & _).
  exists bus', enable.
  split; [exact Hrun | split; [exact Hnew |]].
  rewrite (H16 eq_refl). reflexivity.
Defined.

(** C3. With a modifier other than A16_SC, A24_SC and A32_SC every overload
    of [install_device] ends in [fatalerror] with the message of that
    overload, which names the modifier; the bus at the halt is the bus at the
    call, so no handler was installed in any address space, whatever the
    width. *)
Theorem install_device_unsupported (A16_SC A24_SC A32_SC : Z) (k : delegate_kind)
    (amod start end_ : Z) (rhandler whandler : string) (mask : Z)
    (bus : vme_device) :
  amod <> A16_SC -> amod <> A24_SC -> amod <> A32_SC ->
  install_device_as A16_SC A24_SC A32_SC k amod start end_ rhandler whandler mask bus
  = Fatal (Message (amod_format k) amod) bus.
Proof.
  intros H16 H24 H32. unfold install_device_as.
  rewrite (single_cycle_false _ _ _ _ H16 H24 H32). reflexivity.
Qed.

Lemma install_device_unsupported_witness :
  let bus := VmeDevice (AddressSpace 32 []) true "maincpu" None (Some own_program) 32 [] [] in
  0x3d <> 0x29 /\ 0x3d <> 0x39 /\ 0x3d <> 0x09 /\
  install_device_16 0x29 0x39 0x09 0x3d 0 0xff "read16" "write16" 0xffffffff bus
  = Fatal (Message ("VME D16: Non supported Address modifier: %02x" ++ nl)%string 0x3d) bus.
Proof.
  intros bus.
  assert (H16 : 0x3d <> 0x29) by discriminate.
  assert (H24 : 0x3d <> 0x39) by discriminate.
  assert (H32 : 0x3d <> 0x09) by discriminate.
  split; [exact H16 | split; [exact H24 | split; [exact H32 |]]].
  exact (install_device_unsupported 0x29 0x39 0x09 delegate16 0x3d 0 0xff
           "read16" "write16" 0xffffffff bus H16 H24 H32).
Defined.

(** [device_start] on a bus that uses the owner's spaces, when the owner has
    no cpu under [m_cputag]: the null [m_maincpu] is dereferenced. *)
Lemma device_start_no_cpu (bus : vme_device) :
  m_allocspaces bus = false ->
  subdevice (owner_cpus bus) (m_cputag bus) = None ->
  device_start bus = NullDereference.
Proof.
  intros Halloc Hcpu. unfold device_start. rewrite Halloc, Hcpu. reflexivity.
Qed.

(** C6. A bus switched to the owner's spaces whose owner has no cpu named
    maincpu: [device_start] does not end in [fatalerror], it calls
    [space] on the null pointer [subdevice] returned. *)
Theorem device_start_missing_cpu :
  let bus :=
    use_owner_spaces
      (VmeDevice (AddressSpace 32 []) true "maincpu" None None 0 [] []) in
  m_allocspaces bus = false /\
  subdevice (owner_cpus bus) (m_cputag bus) = None /\
  device_start bus = NullDereference /\
  (forall m s, device_start bus <> Fatal m s).
Proof.
  intros bus. repeat split. intros m s. discriminate.
Qed.

End VMETheory.

(* ================================================================== *)
(** ** Accesses through a slot without a card *)

Module OpenBus.

(** The VME slot reads 0x00, not 0xFF, through a slot without a card. *)
Lemma vme_read8_not_open_bus :
  let s := VME.VmeSlot 1 None in
  VME.card_device s = None /\
  fst (VME.read8 s 0) = 0x00 /\
  fst (VME.read8 s 0) <> 0xff.
Proof.
  intros s. split; [reflexivity | split; [reflexivity | discriminate]].
Qed.

(** C2, amended.  Through an APF slot without a card [read_rom],
    [extra_rom] and [read_ram] return 0xFF at every offset and [write_ram]
    leaves the slot as it was, whatever the card-level functions are.  The VME
    slot's [read8] returns 0x00 at every offset, with or without a card, and
    leaves the slot as it was; so does [write8]. *)
Theorem empty_slot_access
    (card_read_rom card_extra_rom card_read_ram :
       APF.memory -> APF.device_apf_cart_interface -> Z -> Z)
    (card_write_ram :
       APF.device_apf_cart_interface -> Z -> Z -> APF.device_apf_cart_interface)
    (mem : APF.memory) (s : APF.apf_cart_slot_device) (v : VME.vme_slot_device)
    (offset data : Z) :
  APF.m_cart s = None ->
  APF.read_rom card_read_rom mem s offset = 0xff /\
  APF.extra_rom card_extra_rom mem s offset = 0xff /\
  APF.read_ram card_read_ram mem s offset = 0xff /\
  APF.write_ram card_write_ram s offset data = s /\
  VME.read8 v offset = (0x00, v) /\
  VME.write8 v offset data = v.
Proof.
  intros Hcart.
  unfold APF.read_rom, APF.extra_rom, APF.read_ram, APF.write_ram.
  rewrite Hcart. repeat split.
Qed.

Lemma empty_slot_access_witness :
  let s := APF.slot_constructed in
  let v := VME.VmeSlot 1 None in
  APF.m_cart s = None /\
  APF.read_rom APF.spec_card_read_rom [] s 0x1234 = 0xff /\
  APF.write_ram (fun c _ _ => APF.ram_alloc 0 c) s 0x10 0x55 = s /\
  VME.read8 v 0x1234 = (0x00, v).
Proof.
  intros s v.
  destruct (empty_slot_access APF.spec_card_read_rom APF.spec_card_read_rom
              APF.spec_card_read_rom (fun c _ _ => APF.ram_alloc 0 c)
              [] s v 0x1234 0x55 eq_refl)
    as (Hrom & _ & _ & _ & Hvme & _).
  destruct (empty_slot_access APF.spec_card_read_rom APF.spec_card_read_rom
              APF.spec_card_read_rom (fun c _ _ => APF.ram_alloc 0 c)
              [] s v 0x10 0x55 eq_refl)
    as (_ & _ & _ & Hwrite & _ & _).
  split; [reflexivity | split; [exact Hrom | split; [exact Hwrite | exact Hvme]]].
Defined.

End OpenBus.

(* ================================================================== *)
(** ** More on the APF cartridge slot: what a load leaves behind *)

Module APFLoad.
Import APF.

(** The size [call_load] reads is the length of what it copies, as long as
    that length fits 32 bits. *)
Lemma load_size_source (img : image) :
  Z.of_nat (length (rom_source img)) < 2 ^ 32 ->
  load_size img = Z.of_nat (length (rom_source img)).
Proof.
  unfold load_size, rom_source, length_of, get_software_region_length.
  destruct (loaded_through_softlist img); simpl;
    [destruct (get_software_region img "rom"); simpl |];
    intros Hlen; apply APFTheory.to_uint32_small; lia.
Qed.

Lemma copied_length (img : image) :
  length (firstn (Z.to_nat (load_size img)) (rom_source img))
  = Z.to_nat (load_size img).
Proof.
  pose proof (APFTheory.load_size_le_source img).
  rewrite length_firstn. lia.
Qed.

(** X1. A load into a card whose ROM was never allocated (no pointer in the
    card, no region under its tag) stores the image, when the image has at
    least one byte: the ROM is a new region, after the regions there were,
    that holds exactly the bytes of the image; the card records its base and
    the size of the image; the regions there were are untouched. *)
Theorem load_stores_image (img : image) (mem : memory)
    (s : apf_cart_slot_device) (cart : device_apf_cart_interface) :
  m_cart s = Some cart ->
  m_rom cart = None ->
  region_taken mem rom_tag = false ->
  0 < Z.of_nat (length (rom_source img)) <= 0x3800 ->
  exists loaded cart',
    call_load img mem s = Returned loaded /\
    load_error loaded = None /\
    m_cart (load_slot loaded) = Some cart' /\
    m_rom cart' = Some (length mem) /\
    m_rom_size cart' = Z.of_nat (length (rom_source img)) /\
    region_base (load_memory loaded) (length mem) = Some (rom_source img) /\
    (forall p, (p < length mem)%nat ->
       region_base (load_memory loaded) p = region_base mem p).
Proof.
  intros Hcart Hrom Hfree [Hpos Hlen].
  assert (Hsize : load_size img = Z.of_nat (length (rom_source img)))
    by (apply load_size_source; lia).
  assert (Hok : load_size img <= 0x3800) by lia.
  assert (Hholds : rom_holds mem cart (load_size img) = true)
    by (unfold rom_holds; rewrite Hrom, Hfree; reflexivity).
  destruct (APFTheory.call_load_returns img mem s cart Hcart Hok Hholds)
    as (mem2 & Hcopy & Hrun).
  pose proof (APFTheory.load_variant_rom img s
                (snd (rom_alloc (load_size img) (mem, cart))) (load_size img))
    as [Hptr Hrec].
  rewrite APFTheory.load_copy_source in Hcopy.
  rewrite (APFTheory.rom_alloc_fresh _ mem cart Hrom) in Hcopy, Hptr, Hrec, Hrun.
  assert (Hlt : (0 <? load_size img) = true) by (apply Z.ltb_lt; lia).
  rewrite Hlt in Hcopy, Hptr, Hrec, Hrun.
  cbn [fst snd m_rom m_rom_size] in Hcopy, Hptr, Hrec, Hrun.
  destruct (APFTheory.copy_bytes_fits
              (mem ++ [MemoryRegion rom_tag (repeat 0 (Z.to_nat (load_size img)))])
              (length mem) (rom_source img)
              (repeat 0 (Z.to_nat (load_size img))) (load_size img))
    as (mem' & Hcopy' & _ & Hat & Hother).
  { apply APFTheory.region_base_last. }
  { rewrite repeat_length. lia. }
  rewrite Hcopy' in Hcopy. injection Hcopy as <-.
  eexists. eexists. split; [exact Hrun |].
  cbn [load_error load_memory load_slot m_cart].
  split; [reflexivity |]. split; [reflexivity |].
  split; [exact Hptr |]. split; [rewrite Hrec; exact Hsize |].
  split.
  - rewrite Hat, copied_length.
    rewrite skipn_all2 by (rewrite repeat_length; lia).
    rewrite app_nil_r, Hsize, Nat2Z.id. rewrite firstn_all. reflexivity.
  - intros p Hp. rewrite Hother by lia.
    apply APFTheory.region_base_before, Hp.
Qed.

Lemma load_stores_image_witness :
  let img := Image false "game.bin" [0x12; 0x34; 0x56] [] [] in
  let s := Slot APF_STD (Some cart_constructed) in
  m_cart s = Some cart_constructed /\
  m_rom cart_constructed = None /\
  region_taken [] rom_tag = false /\
  0 < Z.of_nat (length (rom_source img)) <= 0x3800 /\
  exists loaded,
    call_load img [] s = Returned loaded /\
    region_base (load_memory loaded) 0 = Some [0x12; 0x34; 0x56].
Proof.
  intros img s.
  assert (Hlen : 0 < Z.of_nat (length (rom_source img)) <= 0x3800)
    by (split; [reflexivity | apply Z.leb_le; reflexivity]).
  split; [reflexivity | split; [reflexivity | split; [reflexivity |]]].
  split; [exact Hlen |].
  destruct (load_stores_image img [] s cart_constructed eq_refl eq_refl eq_refl Hlen)
    as (loaded & cart' & Hrun & _ & _ & _ & _ & Hbytes & _).
  exists loaded. split; [exact Hrun | exact Hbytes].
Defined.

(** X2. A load into a card whose ROM is already allocated and holds the
    image allocates nothing: the card keeps its base pointer and its recorded
    ROM size, which is not brought to the size of the new image; the image is
    written over the front of the ROM and the bytes behind it stay; the
    machine has as many regions as before and every region but the ROM is
    untouched.  For a raw image whose size is not 0x1800 the card is left
    exactly as it was. *)
Theorem reload_keeps_rom (img : image) (mem : memory)
    (s : apf_cart_slot_device) (cart : device_apf_cart_interface)
    (base : nat) (bytes : list Z) :
  m_cart s = Some cart ->
  m_rom cart = Some base ->
  region_base mem base = Some bytes ->
  load_size img <= 0x3800 ->
  load_size img <= Z.of_nat (length bytes) ->
  exists loaded,
    call_load img mem s = Returned loaded /\
    load_error loaded = None /\
    length (load_memory loaded) = length mem /\
    region_base (load_memory loaded) base
    = Some (firstn (Z.to_nat (load_size img)) (rom_source img)
            ++ skipn (Z.to_nat (load_size img)) bytes) /\
    (forall q, base <> q ->
       region_base (load_memory loaded) q = region_base mem q) /\
    (exists cart',
       m_cart (load_slot loaded) = Some cart' /\
       m_rom cart' = Some base /\
       m_rom_size cart' = m_rom_size cart) /\
    (loaded_through_softlist img = false -> load_size img <> 0x1800 ->
     m_cart (load_slot loaded) = Some cart).
Proof.
  intros Hcart Hrom Hbase Hok Hfits.
  assert (Hholds : rom_holds mem cart (load_size img) = true).
  { unfold rom_holds. rewrite Hrom, Hbase.
    apply orb_true_iff. right. apply Z.leb_le, Hfits. }
  destruct (APFTheory.call_load_returns img mem s cart Hcart Hok Hholds)
    as (mem2 & Hcopy & Hrun).
  pose proof (APFTheory.load_variant_rom img s
                (snd (rom_alloc (load_size img) (mem, cart))) (load_size img))
    as [Hptr Hrec].
  assert (Hguard : rom_alloc (load_size img) (mem, cart) = (mem, cart))
    by (apply APFTheory.rom_alloc_guard; rewrite Hrom; discriminate).
  rewrite APFTheory.load_copy_source in Hcopy.
  rewrite Hguard in Hcopy, Hptr, Hrec, Hrun.
  cbn [fst snd] in Hcopy, Hptr, Hrec, Hrun.
  rewrite Hrom in Hcopy.
  destruct (APFTheory.copy_bytes_fits mem base (rom_source img) bytes (load_size img)
              Hbase Hfits)
    as (mem' & Hcopy' & Hlen & Hat & Hother).
  rewrite Hcopy' in Hcopy. injection Hcopy as <-.
  eexists. split; [exact Hrun |].
  cbn [load_error load_memory load_slot m_cart].
  split; [reflexivity |]. split; [exact Hlen |].
  split; [rewrite Hat, copied_length; reflexivity |].
  split; [exact Hother |].
  split.
  - eexists. split; [reflexivity |].
    split; [rewrite Hptr; exact Hrom | exact Hrec].
  - intros Hraw Hne.
    rewrite (APFTheory.load_variant_raw img s cart (load_size img) Hraw).
    cbn [snd].
    apply Z.eqb_neq in Hne. rewrite Hne. reflexivity.
Qed.

Lemma reload_keeps_rom_witness :
  let second := Image false "other.bin" [0x22; 0x33] [] [] in
  let cart := Cart (Some 0%nat) 4 (repeat 0 0x400) in
  let mem := [MemoryRegion rom_tag [0x11; 0x11; 0x11; 0x11]] in
  let s := Slot APF_SPACEDST (Some cart) in
  m_cart s = Some cart /\
  m_rom cart = Some 0%nat /\
  region_base mem 0 = Some [0x11; 0x11; 0x11; 0x11] /\
  load_size second <= 0x3800 /\
  load_size second <= Z.of_nat (length [0x11; 0x11; 0x11; 0x11]) /\
  exists loaded,
    call_load second mem s = Returned loaded /\
    region_base (load_memory loaded) 0 = Some [0x22; 0x33; 0x11; 0x11] /\
    m_cart (load_slot loaded) = Some cart.
Proof.
  intros second cart mem s.
  assert (Hok : load_size second <= 0x3800) by (apply Z.leb_le; reflexivity).
  assert (Hfits : load_size second <= Z.of_nat (length [0x11; 0x11; 0x11; 0x11]))
    by (apply Z.leb_le; reflexivity).
  split; [reflexivity | split; [reflexivity | split; [reflexivity |]]].
  split; [exact Hok | split; [exact Hfits |]].
  destruct (reload_keeps_rom second mem s cart 0%nat [0x11; 0x11; 0x11; 0x11]
              eq_refl eq_refl eq_refl Hok Hfits)
    as (loaded & Hrun & _ & _ & Hat & _ & _ & Hsame).
  exists loaded. split; [exact Hrun |]. split; [exact Hat |].
  apply Hsame; [reflexivity | discriminate].
Defined.

(** X18. A load into a card whose ROM is already allocated but is shorter
    than the image does not return: nothing is allocated, and the copy of the
    image runs past the end of the ROM buffer. *)
Theorem reload_overruns (img : image) (mem : memory)
    (s : apf_cart_slot_device) (cart : device_apf_cart_interface)
    (base : nat) (bytes : list Z) :
  m_cart s = Some cart ->
  m_rom cart = Some base ->
  region_base mem base = Some bytes ->
  Z.of_nat (length bytes) < load_size img <= 0x3800 ->
  call_load img mem s = BufferOverrun.
Proof.
  intros Hcart Hrom Hbase [Hshort Hok].
  rewrite (APFTheory.call_load_steps img mem s cart Hcart Hok).
  rewrite APFTheory.load_copy_overruns;
    [reflexivity | rewrite Hrom; discriminate |].
  unfold rom_holds. rewrite Hrom, Hbase.
  apply orb_false_iff. split; [apply Z.leb_gt; lia | apply Z.leb_gt, Hshort].
Qed.

Lemma reload_overruns_witness :
  let img := Image false "longer.bin" [0x22; 0x33; 0x44] [] [] in
  let cart := Cart (Some 0%nat) 2 [] in
  let mem := [MemoryRegion rom_tag [0x11; 0x11]] in
  let s := Slot APF_STD (Some cart) in
  m_cart s = Some cart /\
  m_rom cart = Some 0%nat /\
  region_base mem 0 = Some [0x11; 0x11] /\
  Z.of_nat (length [0x11; 0x11]) < load_size img <= 0x3800 /\
  call_load img mem s = BufferOverrun.
Proof.
  intros img cart mem s.
  assert (Hsize : Z.of_nat (length [0x11; 0x11]) < load_size img <= 0x3800)
    by (split; [reflexivity | apply Z.leb_le; reflexivity]).
  split; [reflexivity | split; [reflexivity | split; [reflexivity |]]].
  split; [exact Hsize |].
  exact (reload_overruns img mem s cart 0%nat [0x11; 0x11] eq_refl eq_refl eq_refl Hsize).
Defined.

(** X3. How [call_load] ends, when a card without ROM has no region under
    its tag yet.  Its copy runs past the end of the ROM buffer exactly when a
    card is attached, the size is at most 0x3800 and the ROM buffer does not
    hold the image (the ROM of the card, already allocated, is shorter than
    the image).  It returns the length error exactly when a card is attached
    and the size exceeds 0x3800, and the empty error condition exactly when
    no card is attached or the size is at most 0x3800 and the ROM buffer
    holds the image.  It never returns another error; a message is printed
    exactly with the length error; and a slot has a card after the load
    exactly when it had one before. *)
Theorem call_load_errors (img : image) (mem : memory) (s : apf_cart_slot_device) :
  (forall cart, m_cart s = Some cart -> m_rom cart = None ->
     region_taken mem rom_tag = false) ->
  (call_load img mem s = BufferOverrun <->
   exists cart, m_cart s = Some cart /\ load_size img <= 0x3800 /\
                rom_holds mem cart (load_size img) = false) /\
  ((exists r, call_load img mem s = Returned r /\ load_error r = Some INVALIDLENGTH) <->
   m_cart s <> None /\ 0x3800 < load_size img) /\
  ((exists r, call_load img mem s = Returned r /\ load_error r = None) <->
   m_cart s = None \/
   exists cart, m_cart s = Some cart /\ load_size img <= 0x3800 /\
                rom_holds mem cart (load_size img) = true) /\
  (forall r, call_load img mem s = Returned r ->
     load_error r <> Some INTERNAL /\
     (load_printed r <> [] <-> load_error r = Some INVALIDLENGTH) /\
     (m_cart (load_slot r) = None <-> m_cart s = None)).
Proof.
  intros Hfree.
  destruct (m_cart s) as [cart|] eqn:Hcart.
  - destruct (Z.ltb_spec 0x3800 (load_size img)) as [Hbig | Hok].
    + rewrite (APFTheory.call_load_too_long img mem s cart Hcart Hbig).
      split; [split; [discriminate | intros (c & _ & H & _); lia] |].
      split; [split; [intros _; split; [discriminate | exact Hbig]
                     | intros _; eexists; split; reflexivity] |].
      split; [split; [intros (r & Hr & He); injection Hr as <-; discriminate
                     | intros [H | (c & _ & H & _)]; [discriminate | lia]] |].
      intros r Hr. injection Hr as <-. simpl. rewrite Hcart.
      split; [discriminate |].
      split; [split; [reflexivity | discriminate] |].
      split; intros H; exact H.
    + destruct (rom_holds mem cart (load_size img)) eqn:Hholds.
      * destruct (APFTheory.call_load_returns img mem s cart Hcart Hok Hholds)
          as (mem2 & _ & Hrun).
        rewrite Hrun.
        split; [split; [discriminate
                       | intros (c & Hc & _ & H); injection Hc as <-;
                         rewrite Hholds in H; discriminate] |].
        split; [split; [intros (r & Hr & He); injection Hr as <-; discriminate
                       | intros [_ H]; lia] |].
        split; [split; [intros _; right; exists cart; repeat split; assumption
                       | intros _; eexists; split; reflexivity] |].
        intros r Hr. injection Hr as <-. simpl.
        split; [discriminate |].
        split; [split; [intros H; contradiction | discriminate] |].
        split; discriminate.
      * assert (Hset : m_rom cart <> None).
        { intros Hnull. unfold rom_holds in Hholds.
          rewrite Hnull, (Hfree cart eq_refl Hnull) in Hholds. discriminate. }
        rewrite (APFTheory.call_load_steps img mem s cart Hcart Hok).
        rewrite (APFTheory.load_copy_overruns img mem cart Hset Hholds).
        split; [split; [intros _; exists cart; repeat split; assumption
                       | reflexivity] |].
        split; [split; [intros (r & Hr & _); discriminate | intros [_ H]; lia] |].
        split; [split; [intros (r & Hr & _); discriminate
                       | intros [H | (c & Hc & _ & H)];
                         [discriminate
                         | injection Hc as <-; rewrite Hholds in H; discriminate]] |].
        intros r Hr. discriminate.
  - rewrite (APFTheory.call_load_no_card img mem s Hcart).
    split; [split; [discriminate | intros (c & H & _); discriminate] |].
    split; [split; [intros (r & Hr & He); injection Hr as <-; discriminate
                   | intros [H _]; contradiction] |].
    split; [split; [intros _; left; reflexivity
                   | intros _; eexists; split; reflexivity] |].
    intros r Hr. injection Hr as <-. simpl. rewrite Hcart.
    split; [discriminate |].
    split; [split; [intros H; contradiction | discriminate] |].
    split; reflexivity.
Qed.

Lemma call_load_errors_witness :
  let img := Image false "game.bin" [0x12; 0x34; 0x56] [] [] in
  let s := Slot APF_STD (Some cart_constructed) in
  (forall cart, m_cart s = Some cart -> m_rom cart = None ->
     region_taken [] rom_tag = false) /\
  (exists r, call_load img [] s = Returned r /\ load_error r = None) /\
  call_load img [] s <> BufferOverrun.
Proof.
  intros img s.
  assert (Hfree : forall cart, m_cart s = Some cart -> m_rom cart = None ->
                    region_taken [] rom_tag = false)
    by (intros cart _ _; reflexivity).
  split; [exact Hfree |].
  destruct (call_load_errors img [] s Hfree) as (Hover & _ & Hnone & _).
  split.
  - apply Hnone. right. exists cart_constructed.
    split; [reflexivity | split; [discriminate | reflexivity]].
  - intros Hrun. apply Hover in Hrun.
    destruct Hrun as (cart & Hcart & _ & Hholds).
    injection Hcart as <-. discriminate Hholds.
Defined.

Lemma pcb_id_of_option (e : apf_slot) :
  In e slot_list -> apf_get_pcb_id (slot_option e) = pcb_id e.
Proof.
  simpl. intros [<- | [<- | [<- | []]]]; reflexivity.
Qed.

Lemma option_of_pcb_id (e : apf_slot) :
  In e slot_list -> apf_get_slot (pcb_id e) = slot_option e.
Proof.
  simpl. intros [<- | [<- | [<- | []]]]; reflexivity.
Qed.

Lemma apf_get_slot_in_table (type : Z) :
  In (apf_get_slot type) (map slot_option slot_list).
Proof.
  unfold apf_get_slot, slot_list.
  cbn [apf_get_slot_from pcb_id slot_option map].
  destruct (APF_STD =? type); [left; reflexivity |].
  destruct (APF_BASIC =? type); [right; left; reflexivity |].
  destruct (APF_SPACEDST =? type); [right; right; left; reflexivity |].
  left. reflexivity.
Qed.



(** X5. [slot_list] read both ways: for each of its entries
    [apf_get_pcb_id] of the option is the id and [apf_get_slot] of the id is
    the option, so one undoes the other on the table; a name outside the table
    comes back as std; and [apf_get_slot], hence
    [get_default_card_software] on a file, only ever answers an option of the
    table. *)
Theorem pcb_table_round_trip :
  (forall e, In e slot_list ->
     apf_get_pcb_id (slot_option e) = pcb_id e /\
     apf_get_slot (pcb_id e) = slot_option e) /\
  (forall name, In name (map slot_option slot_list) ->
     apf_get_slot (apf_get_pcb_id name) = name) /\
  (forall name, ~ In name (map slot_option slot_list) ->
     apf_get_slot (apf_get_pcb_id name) = "std") /\
  (forall type, In (apf_get_slot type) (map slot_option slot_list)) /\
  (forall data default_slot,
     In (get_default_card_software (Some data) default_slot)
        (map slot_option slot_list)).
Proof.
  split; [| split; [| split; [| split]]].
  - intros e He. split; [apply pcb_id_of_option | apply option_of_pcb_id]; exact He.
  - intros name Hin. apply in_map_iff in Hin. destruct Hin as (e & <- & He).
    rewrite (pcb_id_of_option e He). apply option_of_pcb_id, He.
  - intros name Hout. rewrite (APFTheory.apf_get_pcb_id_unknown name Hout). reflexivity.
  - apply apf_get_slot_in_table.
  - intros data default_slot. unfold get_default_card_software.
    apply apf_get_slot_in_table.
Qed.

(** X6. The query does not know the size limit of the loader: for a raw
    image of more than 0x3800 bytes [get_default_card_software] still answers
    basic, while [call_load] refuses the image with the length error. *)
Theorem query_ignores_size_limit (img : image) (mem : memory)
    (s : apf_cart_slot_device) (cart : device_apf_cart_interface)
    (default_slot : string) :
  loaded_through_softlist img = false ->
  m_cart s = Some cart ->
  0x3800 < length_of img < 2 ^ 32 ->
  get_default_card_software (Some (file_data img)) default_slot = "basic" /\
  call_load img mem s
  = Returned (LoadResult (Some INVALIDLENGTH) mem s [length_message img]).
Proof.
  intros Hraw Hcart [Hbig Hfit].
  split.
  - unfold get_default_card_software.
    change (Z.of_nat (length (file_data img))) with (length_of img).
    rewrite APFTheory.to_uint64_small by lia.
    destruct (APFTheory.default_card_type_cases (length_of img)) as (_ & Hbasic & _).
    rewrite Hbasic by lia. reflexivity.
  - apply (APFTheory.call_load_too_long img mem s cart Hcart).
    rewrite (APFTheory.load_size_raw img Hraw Hfit). exact Hbig.
Qed.

Lemma query_ignores_size_limit_witness :
  let img := Image false "big.bin" (repeat 0 0x3801) [] [] in
  let s := Slot APF_STD (Some cart_constructed) in
  loaded_through_softlist img = false /\
  m_cart s = Some cart_constructed /\
  0x3800 < length_of img < 2 ^ 32 /\
  get_default_card_software (Some (file_data img)) "std" = "basic" /\
  call_load img [] s
  = Returned (LoadResult (Some INVALIDLENGTH) [] s [length_message img]).
Proof.
  intros img s.
  assert (Hlen : 0x3800 < length_of img < 2 ^ 32).
  { split; apply Z.ltb_lt; vm_compute; reflexivity. }
  split; [reflexivity | split; [reflexivity | split; [exact Hlen |]]].
  exact (query_ignores_size_limit img [] s cart_constructed "std" eq_refl eq_refl Hlen).
Defined.

(** X7. [ram_alloc] keeps what the RAM held: below the old and the new size
    every byte stays, the bytes it adds are zero, and the ROM pointer and the
    ROM size of the card are not touched. *)
Theorem ram_alloc_keeps_contents (size : Z) (c : device_apf_cart_interface) (i : nat) :
  (i < Z.to_nat size)%nat ->
  nth_error (m_ram (ram_alloc size c)) i
  = (if (i <? length (m_ram c))%nat then nth_error (m_ram c) i else Some 0) /\
  m_rom (ram_alloc size c) = m_rom c /\
  m_rom_size (ram_alloc size c) = m_rom_size c.
Proof.
  intros Hi. split; [| split; reflexivity].
  unfold ram_alloc, resize. simpl.
  destruct (Nat.ltb_spec i (length (m_ram c))) as [Hold | Hnew].
  - rewrite nth_error_app1 by (rewrite length_firstn; lia).
    rewrite nth_error_firstn.
    destruct (Nat.ltb_spec i (Z.to_nat size)); [reflexivity | lia].
  - rewrite nth_error_app2 by (rewrite length_firstn; lia).
    rewrite length_firstn.
    apply nth_error_repeat. lia.
Qed.

Lemma ram_alloc_keeps_contents_witness :
  let c := Cart None 0 [0xaa; 0xbb] in
  (1 < Z.to_nat 0x400)%nat /\ (2 < Z.to_nat 0x400)%nat /\
  nth_error (m_ram (ram_alloc 0x400 c)) 1 = Some 0xbb /\
  nth_error (m_ram (ram_alloc 0x400 c)) 2 = Some 0.
Proof.
  intros c.
  assert (H1 : (1 < Z.to_nat 0x400)%nat) by (apply Nat.ltb_lt; reflexivity).
  assert (H2 : (2 < Z.to_nat 0x400)%nat) by (apply Nat.ltb_lt; reflexivity).
  split; [exact H1 | split; [exact H2 |]].
  split.
  - exact (proj1 (ram_alloc_keeps_contents 0x400 c 1 H1)).
  - exact (proj1 (ram_alloc_keeps_contents 0x400 c 2 H2)).
Defined.

End APFLoad.

(* ================================================================== *)
(** ** More on the VME bus: start-up, widths and the owner's spaces *)

Module VMEBus.
Import VME.

Lemma subdevice_update_other (l : list (string * cpu_device)) (tag other : string)
    (f : cpu_device -> cpu_device) :
  tag <> other ->
  subdevice (update_subdevice l tag f) other = subdevice l other.
Proof.
  intros Hne. induction l as [|[t d] rest IH]; simpl.
  - reflexivity.
  - destruct (String.eqb_spec t tag) as [-> | Htag]; simpl.
    + destruct (String.eqb_spec tag other); [contradiction | reflexivity].
    + destruct (String.eqb t other); [reflexivity | exact IH].
Qed.

(** With a single-cycle modifier and a width of 16, 24 or 32 the call is one
    [install_readwrite_handler] through [m_prgspace]. *)
Lemma install_device_runs (A16_SC A24_SC A32_SC : Z) (k : delegate_kind)
    (amod start end_ : Z) (rhandler whandler : string) (mask : Z) (bus : vme_device) :
  single_cycle A16_SC A24_SC A32_SC amod = true ->
  m_prgwidth bus = 16 \/ m_prgwidth bus = 24 \/ m_prgwidth bus = 32 ->
  install_device_as A16_SC A24_SC A32_SC k amod start end_ rhandler whandler mask bus
  = with_prgspace bus (fun space =>
      install_readwrite_handler space
        (HandlerEntry start end_ k rhandler whandler
           (enable_mask (m_prgwidth bus) mask))).
Proof.
  intros Hamod Hwidth. unfold install_device_as, enable_mask. rewrite Hamod.
  destruct Hwidth as [-> | [-> | ->]]; reflexivity.
Qed.

Lemma enable_mask_mod (width mask : Z) :
  0 <= mask < 2 ^ 32 ->
  width = 16 \/ width = 24 \/ width = 32 ->
  enable_mask width mask = mask mod 2 ^ width.
Proof.
  intros Hmask [-> | [-> | ->]]; unfold enable_mask; simpl Z.eqb; cbv iota.
  - rewrite VMETheory.land_uint16.
    change 0x0000ffff with (Z.ones 16). apply Z.land_ones. lia.
  - rewrite VMETheory.land_uint24.
    change 0x00ffffff with (Z.ones 24). apply Z.land_ones. lia.
  - symmetry. apply Z.mod_small. exact Hmask.
Qed.

Lemma with_prgspace_started (bus : vme_device) (f : address_space -> address_space) :
  (forall space, data_width (f space) = data_width space) ->
  started bus = true ->
  exists bus' space,
    with_prgspace bus f = Done bus' /\
    prgspace bus = Some space /\
    prgspace bus' = Some (f space) /\
    started bus' = true /\
    m_prgspace bus' = m_prgspace bus /\
    m_prgwidth bus' = m_prgwidth bus /\
    m_device_list bus' = m_device_list bus /\
    m_allocspaces bus' = m_allocspaces bus.
Proof.
  intros Hwidth Hstarted. unfold started in Hstarted.
  destruct (prgspace bus) as [space|] eqn:Hspace; [| discriminate].
  destruct (VMETheory.with_prgspace_done bus f space Hspace)
    as (bus' & Hrun & Hnew & Hptr & Hw).
  exists bus', space.
  split; [exact Hrun |]. split; [reflexivity |]. split; [exact Hnew |].
  split; [unfold started; rewrite Hnew, Hw, Hwidth; exact Hstarted |].
  split; [exact Hptr |]. split; [exact Hw |].
  unfold with_prgspace in Hrun.
  destruct (m_prgspace bus) as [[|tag]|]; try discriminate.
  - injection Hrun as <-. split; reflexivity.
  - destruct (subdevice (owner_cpus bus) tag); [| discriminate].
    injection Hrun as <-. split; reflexivity.
Qed.

(** X8. With a single-cycle modifier but a bus width other than 16, 24 and
    32, every overload of [install_device] ends in [fatalerror] with the
    width message of that overload, carrying the width; nothing is
    installed. *)
Theorem install_device_bad_width (A16_SC A24_SC A32_SC : Z) (k : delegate_kind)
    (amod start end_ : Z) (rhandler whandler : string) (mask : Z) (bus : vme_device) :
  amod = A16_SC \/ amod = A24_SC \/ amod = A32_SC ->
  m_prgwidth bus <> 16 -> m_prgwidth bus <> 24 -> m_prgwidth bus <> 32 ->
  install_device_as A16_SC A24_SC A32_SC k amod start end_ rhandler whandler mask bus
  = Fatal (Message (width_format k) (m_prgwidth bus)) bus.
Proof.
  intros Hamod H16 H24 H32. unfold install_device_as.
  rewrite (VMETheory.single_cycle_true _ _ _ _ Hamod).
  apply Z.eqb_neq in H16, H24, H32. rewrite H16, H24, H32. reflexivity.
Qed.

Lemma install_device_bad_width_witness :
  let bus := VmeDevice (AddressSpace 8 []) true "maincpu" None (Some own_program) 8 [] [] in
  (0x39 = 0x29 \/ 0x39 = 0x39 \/ 0x39 = 0x09) /\
  m_prgwidth bus <> 16 /\ m_prgwidth bus <> 24 /\ m_prgwidth bus <> 32 /\
  install_device_32 0x29 0x39 0x09 0x39 0 0xff "read32" "write32" 0xffffffff bus
  = Fatal (Message ("VME D32: Bus width %d not supported" ++ nl)%string 8) bus.
Proof.
  intros bus.
  assert (Hamod : 0x39 = 0x29 \/ 0x39 = 0x39 \/ 0x39 = 0x09) by (right; left; reflexivity).
  assert (H16 : m_prgwidth bus <> 16) by discriminate.
  assert (H24 : m_prgwidth bus <> 24) by discriminate.
  assert (H32 : m_prgwidth bus <> 32) by discriminate.
  split; [exact Hamod | split; [exact H16 | split; [exact H24 | split; [exact H32 |]]]].
  exact (install_device_bad_width 0x29 0x39 0x09 delegate32 0x39 0 0xff
           "read32" "write32" 0xffffffff bus Hamod H16 H24 H32).
Defined.

(** X9. When [device_start] returns, the bus is started: [m_prgspace]
    points to a space and [m_prgwidth] is the data width of that space (the
    bus's own program space, or the program space of the cpu named by
    [m_cputag] after [use_owner_spaces]).  It returns exactly when the bus
    uses its own spaces or the owner has that cpu, and it changes neither a
    space nor the device list. *)
Theorem device_start_starts (bus : vme_device) :
  m_allocspaces bus = true \/ subdevice (owner_cpus bus) (m_cputag bus) <> None ->
  exists bus' space,
    device_start bus = Done bus' /\
    started bus' = true /\
    prgspace bus' = Some space /\
    (m_allocspaces bus = true -> space = program bus) /\
    (m_allocspaces bus = false ->
     option_map cpu_program (subdevice (owner_cpus bus) (m_cputag bus)) = Some space) /\
    program bus' = program bus /\
    owner_cpus bus' = owner_cpus bus /\
    m_device_list bus' = m_device_list bus.
Proof.
  intros Hcan. unfold device_start.
  destruct (m_allocspaces bus) eqn:Halloc.
  - eexists. exists (program bus). split; [reflexivity |].
    unfold started, prgspace. simpl. rewrite Z.eqb_refl.
    repeat split. intros H. discriminate.
  - destruct Hcan as [H | Hcpu]; [discriminate |].
    destruct (subdevice (owner_cpus bus) (m_cputag bus)) as [cpu|] eqn:Hfound;
      [| contradiction].
    eexists. exists (cpu_program cpu). split; [reflexivity |].
    unfold started, prgspace. simpl. rewrite Hfound. simpl. rewrite Z.eqb_refl.
    repeat split. intros H. discriminate.
Qed.

Lemma device_start_starts_witness :
  let cpu := CpuDevice (AddressSpace 16 []) in
  let bus := use_owner_spaces (bus_constructed None None 0 [("maincpu", cpu)]) in
  (m_allocspaces bus = true \/ subdevice (owner_cpus bus) (m_cputag bus) <> None) /\
  exists bus',
    device_start bus = Done bus' /\
    started bus' = true /\
    prgspace bus' = Some (AddressSpace 16 []).
Proof.
  intros cpu bus.
  assert (Hcan : m_allocspaces bus = true
                 \/ subdevice (owner_cpus bus) (m_cputag bus) <> None)
    by (right; discriminate).
  split; [exact Hcan |].
  destruct (device_start_starts bus Hcan)
    as (bus' & space & Hrun & Hstarted & Hspace & _ & Hcpu & _).
  exists bus'. split; [exact Hrun | split; [exact Hstarted |]].
  rewrite Hspace. rewrite <- (Hcpu eq_refl). reflexivity.
Defined.

Lemma install_keeps_width (e : handler_entry) (space : address_space) :
  data_width (install_readwrite_handler space e) = data_width space.
Proof. reflexivity. Qed.

(** X10. On a started bus no overload of [install_device] dereferences a
    null pointer: it either halts in [fatalerror] with the bus as it was, or
    returns a bus that is still started, with the same [m_prgspace],
    [m_prgwidth], device list and [m_allocspaces]; so installations can
    follow one another. *)
Theorem install_device_keeps_started (A16_SC A24_SC A32_SC : Z) (k : delegate_kind)
    (amod start end_ : Z) (rhandler whandler : string) (mask : Z) (bus : vme_device) :
  started bus = true ->
  (exists m,
     install_device_as A16_SC A24_SC A32_SC k amod start end_ rhandler whandler mask bus
     = Fatal m bus) \/
  (exists bus',
     install_device_as A16_SC A24_SC A32_SC k amod start end_ rhandler whandler mask bus
     = Done bus' /\
     started bus' = true /\
     m_prgspace bus' = m_prgspace bus /\
     m_prgwidth bus' = m_prgwidth bus /\
     m_device_list bus' = m_device_list bus /\
     m_allocspaces bus' = m_allocspaces bus).
Proof.
  intros Hstarted. unfold install_device_as.
  destruct (single_cycle A16_SC A24_SC A32_SC amod); [| left; eexists; reflexivity].
  assert (Hrun : forall e,
    exists bus',
      with_prgspace bus (fun space => install_readwrite_handler space e) = Done bus' /\
      started bus' = true /\
      m_prgspace bus' = m_prgspace bus /\
      m_prgwidth bus' = m_prgwidth bus /\
      m_device_list bus' = m_device_list bus /\
      m_allocspaces bus' = m_allocspaces bus).
  { intros e.
    destruct (with_prgspace_started bus
                (fun space => install_readwrite_handler space e)
                (install_keeps_width e) Hstarted)
      as (bus' & space & Hdone & _ & _ & Hst & Hptr & Hw & Hlist & Halloc).
    exists bus'. repeat split; assumption. }
  destruct (m_prgwidth bus =? 16); [right; apply Hrun |].
  destruct (m_prgwidth bus =? 24); [right; apply Hrun |].
  destruct (m_prgwidth bus =? 32); [right; apply Hrun |].
  left. eexists. reflexivity.
Qed.

Lemma install_device_keeps_started_witness :
  let bus := VmeDevice (AddressSpace 32 []) true "maincpu" None (Some own_program) 32 [] [] in
  started bus = true /\
  exists bus',
    install_device_8 0x29 0x39 0x09 0x29 0 0xff "r" "w" 0xff bus = Done bus' /\
    started bus' = true.
Proof.
  intros bus.
  assert (Hstarted : started bus = true) by reflexivity.
  split; [exact Hstarted |].
  destruct (install_device_keeps_started 0x29 0x39 0x09 delegate8 0x29 0 0xff
              "r" "w" 0xff bus Hstarted)
    as [(m & Hfatal) | (bus' & Hdone & Hst & _)].
  - discriminate Hfatal.
  - exists bus'. split; [exact Hdone | exact Hst].
Defined.

(** X11. Where an installation lands.  On a bus that uses its own spaces the
    handler goes into the program space of the bus and the cpus of the owner
    are untouched.  After [use_owner_spaces] and [device_start] the handler
    goes into the program space of the cpu named by the pointer: the bus's
    own program space is untouched, and so is every other cpu. *)
Theorem install_device_target (A16_SC A24_SC A32_SC : Z) (k : delegate_kind)
    (amod start end_ : Z) (rhandler whandler : string) (mask : Z) (bus : vme_device) :
  amod = A16_SC \/ amod = A24_SC \/ amod = A32_SC ->
  m_prgwidth bus = 16 \/ m_prgwidth bus = 24 \/ m_prgwidth bus = 32 ->
  let entry := HandlerEntry start end_ k rhandler whandler
                 (enable_mask (m_prgwidth bus) mask) in
  let run := install_device_as A16_SC A24_SC A32_SC k amod start end_
               rhandler whandler mask bus in
  (m_prgspace bus = Some own_program ->
   exists bus',
     run = Done bus' /\
     program bus' = install_readwrite_handler (program bus) entry /\
     owner_cpus bus' = owner_cpus bus) /\
  (forall tag cpu,
     m_prgspace bus = Some (cpu_program_of tag) ->
     subdevice (owner_cpus bus) tag = Some cpu ->
     exists bus',
       run = Done bus' /\
       program bus' = program bus /\
       subdevice (owner_cpus bus') tag
       = Some (CpuDevice (install_readwrite_handler (cpu_program cpu) entry)) /\
       (forall other, tag <> other ->
          subdevice (owner_cpus bus') other = subdevice (owner_cpus bus) other)).
Proof.
  intros Hamod Hwidth entry run.
  assert (Hrun : run = with_prgspace bus
                         (fun space => install_readwrite_handler space entry)).
  { unfold run, entry. apply install_device_runs; [| exact Hwidth].
    apply VMETheory.single_cycle_true, Hamod. }
  rewrite Hrun. unfold with_prgspace. split.
  - intros ->. eexists. split; [reflexivity |]. split; reflexivity.
  - intros tag cpu -> Hcpu. rewrite Hcpu.
    eexists. split; [reflexivity |]. simpl.
    split; [reflexivity |].
    split; [rewrite VMETheory.subdevice_update, Hcpu; reflexivity |].
    intros other Hne. apply subdevice_update_other, Hne.
Qed.

Lemma install_device_target_witness :
  let cpu := CpuDevice (AddressSpace 16 []) in
  let fpu := CpuDevice (AddressSpace 32 []) in
  let bus := VmeDevice (AddressSpace 32 []) false "maincpu" (Some "maincpu")
               (Some (cpu_program_of "maincpu")) 16 []
               [("fpu", fpu); ("maincpu", cpu)] in
  (0x29 = 0x29 \/ 0x29 = 0x39 \/ 0x29 = 0x09) /\
  (m_prgwidth bus = 16 \/ m_prgwidth bus = 24 \/ m_prgwidth bus = 32) /\
  exists bus',
    install_device_16 0x29 0x39 0x09 0x29 0x100 0x1ff "r16" "w16" 0x12345678 bus
    = Done bus' /\
    program bus' = AddressSpace 32 [] /\
    subdevice (owner_cpus bus') "maincpu"
    = Some (CpuDevice (AddressSpace 16
              [HandlerEntry 0x100 0x1ff delegate16 "r16" "w16" 0x5678])) /\
    subdevice (owner_cpus bus') "fpu" = Some fpu.
Proof.
  intros cpu fpu bus.
  assert (Hamod : 0x29 = 0x29 \/ 0x29 = 0x39 \/ 0x29 = 0x09) by (left; reflexivity).
  assert (Hwidth : m_prgwidth bus = 16 \/ m_prgwidth bus = 24 \/ m_prgwidth bus = 32)
    by (left; reflexivity).
  split; [exact Hamod | split; [exact Hwidth |]].
  destruct (install_device_target 0x29 0x39 0x09 delegate16 0x29 0x100 0x1ff
              "r16" "w16" 0x12345678 bus Hamod Hwidth) as (_ & Hcpu).
  destruct (Hcpu "maincpu" cpu eq_refl eq_refl)
    as (bus' & Hdone & Hown & Hmain & Hother).
  exists bus'. split; [exact Hdone |]. split; [exact Hown |].
  split; [exact Hmain |].
  rewrite (Hother "fpu"); [reflexivity | discriminate].
Defined.

(** X12. [use_owner_spaces] only clears [m_allocspaces].  Called on a bus
    after [device_start] it does not move [m_prgspace] or [m_prgwidth], so
    every later [install_device] ends the same way and in the same spaces as
    without the call; called twice it is as called once. *)
Theorem use_owner_spaces_after_start (A16_SC A24_SC A32_SC : Z) (k : delegate_kind)
    (amod start end_ : Z) (rhandler whandler : string) (mask : Z) (bus : vme_device) :
  prgspace (use_owner_spaces bus) = prgspace bus /\
  m_prgwidth (use_owner_spaces bus) = m_prgwidth bus /\
  started (use_owner_spaces bus) = started bus /\
  use_owner_spaces (use_owner_spaces bus) = use_owner_spaces bus /\
  install_device_as A16_SC A24_SC A32_SC k amod start end_ rhandler whandler mask
    (use_owner_spaces bus)
  = outcome_map use_owner_spaces
      (install_device_as A16_SC A24_SC A32_SC k amod start end_ rhandler whandler
         mask bus).
Proof.
  repeat split.
  unfold install_device_as. simpl m_prgwidth.
  assert (Hrun : forall f,
    with_prgspace (use_owner_spaces bus) f
    = outcome_map use_owner_spaces (with_prgspace bus f)).
  { intros f. unfold with_prgspace. simpl.
    destruct (m_prgspace bus) as [[|tag]|]; try reflexivity.
    destruct (subdevice (owner_cpus bus) tag); reflexivity. }
  destruct (single_cycle A16_SC A24_SC A32_SC amod); [| reflexivity].
  destruct (m_prgwidth bus =? 16); [apply Hrun |].
  destruct (m_prgwidth bus =? 24); [apply Hrun |].
  destruct (m_prgwidth bus =? 32); [apply Hrun |].
  reflexivity.
Qed.



(** X14. The enable mask that reaches the address space is the 32-bit mask
    reduced modulo two to the bus width: it always fits the width, and a mask
    that already fits is passed on unchanged. *)
Theorem install_device_mask_fits (A16_SC A24_SC A32_SC : Z) (k : delegate_kind)
    (amod start end_ : Z) (rhandler whandler : string) (mask : Z)
    (bus : vme_device) (space : address_space) :
  amod = A16_SC \/ amod = A24_SC \/ amod = A32_SC ->
  m_prgwidth bus = 16 \/ m_prgwidth bus = 24 \/ m_prgwidth bus = 32 ->
  prgspace bus = Some space ->
  0 <= mask < 2 ^ 32 ->
  exists bus' enable,
    install_device_as A16_SC A24_SC A32_SC k amod start end_ rhandler whandler mask bus
    = Done bus' /\
    prgspace bus'
    = Some (install_readwrite_handler space
              (HandlerEntry start end_ k rhandler whandler enable)) /\
    enable = mask mod 2 ^ m_prgwidth bus /\
    0 <= enable < 2 ^ m_prgwidth bus /\
    (mask < 2 ^ m_prgwidth bus -> enable = mask).
Proof.
  intros Hamod Hwidth Hspace Hmask.
  rewrite (install_device_runs A16_SC A24_SC A32_SC k amod start end_ rhandler
             whandler mask bus (VMETheory.single_cycle_true _ _ _ _ Hamod) Hwidth).
  destruct (VMETheory.with_prgspace_done bus
              (fun sp => install_readwrite_handler sp
                 (HandlerEntry start end_ k rhandler whandler
                    (enable_mask (m_prgwidth bus) mask))) space Hspace)
    as (bus' & Hrun & Hnew & _ & _).
  exists bus', (enable_mask (m_prgwidth bus) mask).
  split; [exact Hrun |]. split; [exact Hnew |].
  rewrite (enable_mask_mod (m_prgwidth bus) mask Hmask Hwidth).
  assert (Hpos : 0 < 2 ^ m_prgwidth bus)
    by (destruct Hwidth as [-> | [-> | ->]]; reflexivity).
  split; [reflexivity |].
  split; [apply Z.mod_pos_bound, Hpos |].
  intros Hfits. apply Z.mod_small. lia.
Qed.

Lemma install_device_mask_fits_witness :
  let bus := VmeDevice (AddressSpace 24 []) true "maincpu" None (Some own_program) 24 [] [] in
  (0x09 = 0x29 \/ 0x09 = 0x39 \/ 0x09 = 0x09) /\
  (m_prgwidth bus = 16 \/ m_prgwidth bus = 24 \/ m_prgwidth bus = 32) /\
  prgspace bus = Some (AddressSpace 24 []) /\
  0 <= 0xff00ff00 < 2 ^ 32 /\
  exists bus' enable,
    install_device_8smo 0x29 0x39 0x09 0x09 0 7 "r" "w" 0xff00ff00 bus = Done bus' /\
    enable = 0xff00ff00 mod 2 ^ 24 /\
    prgspace bus'
    = Some (AddressSpace 24 [HandlerEntry 0 7 delegate8smo "r" "w" enable]).
Proof.
  intros bus.
  assert (Hamod : 0x09 = 0x29 \/ 0x09 = 0x39 \/ 0x09 = 0x09) by (right; right; reflexivity).
  assert (Hwidth : m_prgwidth bus = 16 \/ m_prgwidth bus = 24 \/ m_prgwidth bus = 32)
    by (right; left; reflexivity).
  assert (Hmask : 0 <= 0xff00ff00 < 2 ^ 32) by (split; [discriminate | reflexivity]).
  split; [exact Hamod | split; [exact Hwidth | split; [reflexivity | split; [exact Hmask |]]]].
  destruct (install_device_mask_fits 0x29 0x39 0x09 delegate8smo 0x09 0 7 "r" "w"
              0xff00ff00 bus (AddressSpace 24 []) Hamod Hwidth eq_refl Hmask)
    as (bus' & enable & Hdone & Hnew & Hmod & _).
  exists bus', enable. split; [exact Hdone | split; [exact Hmod | exact Hnew]].
Defined.

(** X15. A bus as constructed, started without [use_owner_spaces]: its
    width is the 32 bits of [m_a32_config], so with a single-cycle modifier
    every overload of [install_device] returns, the mask is not cut, and the
    16-bit and 24-bit cases and the width error cannot occur; the handler is
    in the bus's own program space. *)
Theorem constructed_bus_installs (A16_SC A24_SC A32_SC : Z) (k : delegate_kind)
    (amod start end_ : Z) (rhandler whandler : string) (mask : Z)
    (maincpu : option string) (pointer : option space_pointer) (width : Z)
    (cpus : list (string * cpu_device)) :
  amod = A16_SC \/ amod = A24_SC \/ amod = A32_SC ->
  exists bus1 bus2,
    device_start (bus_constructed maincpu pointer width cpus) = Done bus1 /\
    m_prgwidth bus1 = 32 /\
    install_device_as A16_SC A24_SC A32_SC k amod start end_ rhandler whandler mask bus1
    = Done bus2 /\
    program bus2
    = AddressSpace 32 [HandlerEntry start end_ k rhandler whandler mask] /\
    owner_cpus bus2 = cpus.
Proof.
  intros Hamod.
  eexists. eexists. split; [reflexivity |]. split; [reflexivity |].
  unfold install_device_as.
  rewrite (VMETheory.single_cycle_true _ _ _ _ Hamod). simpl.
  split; [reflexivity |]. split; reflexivity.
Qed.

Lemma constructed_bus_installs_witness :
  (0x39 = 0x29 \/ 0x39 = 0x39 \/ 0x39 = 0x09) /\
  exists bus1 bus2,
    device_start (bus_constructed None None 0 []) = Done bus1 /\
    install_device_16 0x29 0x39 0x09 0x39 0 0xffff "r" "w" 0xffffffff bus1 = Done bus2 /\
    program bus2
    = AddressSpace 32 [HandlerEntry 0 0xffff delegate16 "r" "w" 0xffffffff].
Proof.
  assert (Hamod : 0x39 = 0x29 \/ 0x39 = 0x39 \/ 0x39 = 0x09) by (right; left; reflexivity).
  split; [exact Hamod |].
  destruct (constructed_bus_installs 0x29 0x39 0x09 delegate16 0x39 0 0xffff "r" "w"
              0xffffffff None None 0 [] Hamod)
    as (bus1 & bus2 & Hstart & _ & Hrun & Hprog & _).
  exists bus1, bus2. split; [exact Hstart | split; [exact Hrun | exact Hprog]].
Defined.

End VMEBus.

(* ================================================================== *)
(** ** The Easi-Speech cartridge *)

Module EasiSpeechTheory.
Import EasiSpeech.

(** X16. [initialize_cartridge] succeeds exactly when the region rom exists
    and has 0x2000 bytes.  A missing region is the internal error, another
    size the length error; in both cases a message is set and nothing is
    installed.  On success the message is left alone and three things are
    installed after what the pages held, in this order: the region as ROM at
    0x4000-0x5fff of page 1, the read handler and the write handler at 0x8000
    of page 2. *)
Theorem initialize_cartridge_result (message : string) (d : msx_cart_easispeech_device) :
  let r := initialize_cartridge message d in
  (init_error r = Some APF.INTERNAL <-> cart_rom_region d = None) /\
  (init_error r = Some APF.INVALIDLENGTH <->
   exists region, cart_rom_region d = Some region /\ bytes region <> 0x2000) /\
  (init_error r = None <->
   exists region, cart_rom_region d = Some region /\ bytes region = 0x2000) /\
  (init_error r <> None -> init_device r = d /\ init_message r <> EmptyString) /\
  (forall region, cart_rom_region d = Some region -> bytes region = 0x2000 ->
     init_message r = message /\
     cart_rom_region (init_device r) = Some region /\
     pages (init_device r)
     = pages d ++ [ (1, install_rom 0x4000 0x5fff 0x2000 region);
                    (2, install_read_handler 0x8000 0x8000 "speech_r");
                    (2, install_write_handler 0x8000 0x8000 "speech_w") ]).
Proof.
  unfold initialize_cartridge.
  destruct (cart_rom_region d) as [region|] eqn:Hregion.
  - destruct (Z.eqb_spec (bytes region) 0x2000) as [Hsize | Hsize]; simpl.
    + split; [split; discriminate |].
      split; [split; [discriminate | intros (r' & Hr' & Hne)] |].
      { injection Hr' as <-. contradiction. }
      split; [split; [intros _; exists region; split; [reflexivity | exact Hsize]
                     | reflexivity] |].
      split; [intros H; contradiction |].
      intros r' Hr' _. injection Hr' as <-.
      repeat split.
    + split; [split; discriminate |].
      split; [split; [intros _; exists region; split; [reflexivity | exact Hsize]
                     | reflexivity] |].
      split; [split; [discriminate | intros (r' & Hr' & Heq)] |].
      { injection Hr' as <-. contradiction. }
      split; [intros _; split; [reflexivity | discriminate] |].
      intros r' Hr' Heq. injection Hr' as <-. contradiction.
  - simpl.
    split; [split; reflexivity |].
    split; [split; [discriminate | intros (r' & Hr' & _); discriminate] |].
    split; [split; [discriminate | intros (r' & Hr' & _); discriminate] |].
    split; [intros _; split; [reflexivity | discriminate] |].
    intros r' Hr'. discriminate.
Qed.

(** X17. [speech_r] carries the LRQ line in bit 7 and nothing else: it
    returns 0x80 when what [lrq_r] answers is odd and 0x00 when it is even,
    so 0x80 for 1 and 0x00 for 0. *)
Theorem speech_r_bit7 (lrq : Z) :
  0 <= lrq < 2 ^ 24 ->
  speech_r lrq = 0x80 * (lrq mod 2) /\
  (speech_r lrq = 0x00 \/ speech_r lrq = 0x80) /\
  (forall i, 0 <= i -> i <> 7 -> Z.testbit (speech_r lrq) i = false).
Proof.
  intros Hlrq.
  assert (Hval : speech_r lrq = 0x80 * (lrq mod 2)).
  { unfold speech_r, to_uint8. rewrite Z.shiftl_mul_pow2 by lia.
    change (2 ^ 8) with (2 * 2 ^ 7).
    rewrite Z.mul_mod_distr_r by lia. apply Z.mul_comm. }
  assert (Hbit : lrq mod 2 = 0 \/ lrq mod 2 = 1)
    by (pose proof (Z.mod_pos_bound lrq 2); lia).
  split; [exact Hval |]. rewrite Hval.
  destruct Hbit as [-> | ->]; simpl.
  - split; [left; reflexivity |]. intros i _ _. apply Z.testbit_0_l.
  - split; [right; reflexivity |]. intros i Hi Hne.
    change 128 with (2 ^ 7). apply Z.pow2_bits_false. lia.
Qed.

Lemma speech_r_bit7_witness :
  0 <= 1 < 2 ^ 24 /\ speech_r 1 = 0x80 /\ Z.testbit (speech_r 1) 0 = false.
Proof.
  assert (Hlrq : 0 <= 1 < 2 ^ 24) by (split; [discriminate | reflexivity]).
  split; [exact Hlrq |].
  destruct (speech_r_bit7 1 Hlrq) as (Hval & _ & Hbits).
  split; [exact Hval |].
  apply Hbits; discriminate.
Defined.

End EasiSpeechTheory.
